(** * Octahedral distortions in perovskites: tilting angles and A-cation rotation

    A shallow embedding of [oct_distortions/oct_distortions.py] and
    [rotations.py].  Python objects live in a heap, printing goes to a
    [stdout] log, the two process-wide random generators (Python's [random]
    and numpy's) are part of the world, exceptions are an outcome.  The
    geometry of pymatgen, ASE and numpy is not part of the two files: it is a
    record [Library] of functions that every definition takes as a
    parameter.  Being functions, they answer alike on like arguments and do
    not raise. *)

From Stdlib Require Import PrimFloat ZArith SpecFloat FloatOps.
From stdpp Require Import gmap strings list pretty.

Set Warnings "-inexact-float".

(** ** Floats and vectors *)

(** numpy arrays of shape (3,): coordinates, axes, centers. *)
Abbreviation vec3 := (float * float * float)%type.

Definition vzero : vec3 := (0, 0, 0)%float.

Definition vadd (a b : vec3) : vec3 :=
  let '(a0, a1, a2) := a in
  let '(b0, b1, b2) := b in
  (a0 + b0, a1 + b1, a2 + b2)%float.

Definition vscale (a : vec3) (k : float) : vec3 :=
  let '(a0, a1, a2) := a in (a0 * k, a1 * k, a2 * k)%float.

Definition vdiv (a : vec3) (k : float) : vec3 :=
  let '(a0, a1, a2) := a in (a0 / k, a1 / k, a2 / k)%float.

Definition np_pi : float := 3.141592653589793%float.

(** ** Structures *)

Record Site := {
  species_string : string;
  coords : vec3;
  weight : float;                (* site.species.weight *)
}.

Record Structure := {
  lattice : vec3 * vec3 * vec3;
  sites : list Site;
}.

(** What the neighbour searches return: a periodic image of a site, of which
    the code reads [.index] (['site_index'] in CrystalNN's dictionaries) and
    [.species_string]. *)
Record Neighbor := {
  site_index : nat;
  nn_species : string;
}.

(** States of the random generators are opaque to the two files. *)
Abbreviation RandomState := N.

(** ** The external collaborators *)

Record Library := {
  (* struct.get_distance(i, j): minimum-image distance *)
  get_distance : Structure → nat → nat → float;
  (* struct.get_neighbors(site, r) *)
  get_neighbors : Structure → Site → float → list Neighbor;
  (* CrystalNN(search_cutoff = c).get_nn_data(struct, n).all_nninfo *)
  get_nn_data : float → Structure → nat → list Neighbor;
  (* aaa.get_atoms(struct).get_angle(a, b, c, mic=True) *)
  get_angle : Structure → nat → nat → nat → float;
  (* round(x, ndigits) *)
  round : float → nat → float;
  (* np.mean(list) *)
  np_mean : list float → float;
  (* random.Random._randbelow(n): an int below n, for 0 < n *)
  randbelow : Z → RandomState → Z * RandomState;
  randbelow_range : ∀ n g, (0 < n)%Z → (0 ≤ (randbelow n g).1 < n)%Z;
  (* one step of struct.perturb(distance): the site's coordinates moved by a
     random vector of that length *)
  perturb_coords : vec3 * vec3 * vec3 → float → vec3 → RandomState → vec3 * RandomState;
  (* the coordinates rotate_sites gives a site: axis, theta, anchor, old *)
  rotate_coords : vec3 → float → vec3 → vec3 → vec3;
}.

(** ** The world, outcomes and the monad of Python code *)

Abbreviation loc := nat.

Inductive exn :=
  | AssertionError (msg : string)
  | UnboundLocalError (name : string)
  | ValueError (msg : string)
  | IndexError (msg : string)
  | OverflowError (msg : string)
  | DanglingReference.            (* no Python program reaches this *)

Inductive printed :=
  | PrintStr (s : string)
  | PrintFloats (label : string) (l : list float)
  | PrintStrings (l : list string).

Record World := {
  heap : gmap loc Structure;
  py_random : RandomState;        (* the generator behind random.randrange *)
  np_random : RandomState;        (* the generator behind np.random *)
  stdout : list printed;
  (* ghost: the arguments of every struct.get_distance call, in order *)
  distance_calls : list (nat * nat);
}.

Inductive outcome (A : Type) :=
  | Returned (a : A)
  | Raised (e : exn).
Arguments Returned {A} a.
Arguments Raised {A} e.

Definition M (A : Type) : Type := World → outcome A * World.

#[global] Instance M_ret : MRet M := λ A a w, (Returned a, w).

#[global] Instance M_bind : MBind M := λ A B k m w,
  match m w with
  | (Returned a, w') => k a w'
  | (Raised e, w') => (Raised e, w')
  end.

Definition raise {A} (e : exn) : M A := λ w, (Raised e, w).

Definition py_assert (b : bool) (msg : string) : M unit :=
  if b then mret () else raise (AssertionError msg).

(** [logs out calls w]: the world after printing [out] and asking for the
    distances [calls]; everything else as in [w]. *)
Definition logs (out : list printed) (calls : list (nat * nat)) (w : World) : World :=
  {| heap := heap w; py_random := py_random w; np_random := np_random w;
     stdout := stdout w ++ out; distance_calls := distance_calls w ++ calls |}.

Definition print (p : printed) : M unit := λ w, (Returned (), logs [p] [] w).

Definition load (l : loc) : M Structure := λ w,
  match heap w !! l with
  | Some s => (Returned s, w)
  | None => (Raised DanglingReference, w)
  end.

(** What Python does with the int operand of [angle * np.pi]: the nearest
    double, and OverflowError from [2^1024 - 2^970] on, where that is no
    finite double. *)
Definition float_of_int (z : Z) : M float :=
  if decide (Z.abs z < 2 ^ 1024 - 2 ^ 970)%Z
  then mret (SF2Prim (binary_normalize 53 1024 z 0 false))
  else raise (OverflowError "int too large to convert to float").

(** [struct[i]] for an index that [enumerate] produced. *)
Definition getitem (s : Structure) (i : nat) : M Site :=
  match sites s !! i with
  | Some site => mret site
  | None => raise (IndexError "list index out of range")
  end.

(** [enumerate(struct)] *)
Definition enumerate (s : Structure) : list (nat * Site) := imap pair (sites s).

(** [[index for index, site in enumerate(struct) if site.species_string == sp]] *)
Definition sites_of_species (s : Structure) (sp : string) : list nat :=
  fst <$> filter (λ p, species_string p.2 = sp) (enumerate s).

(** [[n.index for n in nbrs if n.species_string == sp]] *)
Definition indices_of_species (nbrs : list Neighbor) (sp : string) : list nat :=
  site_index <$> filter (λ n, nn_species n = sp) nbrs.

(** [l.remove(x)]: drops the first occurrence, [None] for Python's ValueError. *)
Fixpoint list_remove (x : nat) (l : list nat) : option (list nat) :=
  match l with
  | [] => None
  | y :: l' => if decide (x = y) then Some l' else (y ::.) <$> list_remove x l'
  end.

(** ** oct_distortions.py *)

(** What one pass through the body of the inner loop leaves behind. *)
Inductive step :=
  | Continue (angles : list float)
  | Break (angles : list float).

(** How a [for] loop ended. *)
Inductive loop_exit := Exhausted | Broke.

Section oct_distortions.
Context (lib : Library).
Variables (b_cation x_anion : string).
Variables (distance_between_b_cations distance_between_b_x : float).
Variable (algorithm : string).

(** [struct.get_distance(b_site_1, b_site_2)], recorded in the ghost log. *)
Definition struct_get_distance (s : Structure) (b1 b2 : nat) : M float := λ w,
  (Returned (get_distance lib s b1 b2), logs [] [(b1, b2)] w).

(** Lines 59-65: the two coordination lists.  With an [algorithm] that is
    neither of the two names no branch assigns the lists, and line 68
    reads an unbound local. *)
Definition x_neighbors_of_pair (s : Structure) (b1 b2 : nat)
  : M (list nat * list nat) :=
  if decide (algorithm = "neighbors") then
    site_1 ← getitem s b1;
    site_2 ← getitem s b2;
    mret (indices_of_species (get_neighbors lib s site_1 distance_between_b_x) x_anion,
          indices_of_species (get_neighbors lib s site_2 distance_between_b_x) x_anion)
  else if decide (algorithm = "crystal_nn") then
    mret (indices_of_species (get_nn_data lib distance_between_b_x s b1) x_anion,
          indices_of_species (get_nn_data lib distance_between_b_x s b2) x_anion)
  else raise (UnboundLocalError "x_neighbors_of_b_1").

(** The f-string of lines 68 and 69. *)
Definition coordination_message (n : nat) : string :=
  "I find " +:+ pretty n +:+ " " +:+ x_anion +:+ " surrounding the " +:+ b_cation
  +:+ ". This number should be 6!".

Definition no_common_message : string :=
  "No common " +:+ x_anion +:+ " between the " +:+ b_cation.

(** [list(set(a).intersection(b))] *)
Definition common_x_anions (n1 n2 : list nat) : list nat :=
  elements (list_to_set n1 ∩ list_to_set n2 : gset nat).

(** Lines 76-81. *)
Fixpoint for_x_site (s : Structure) (b1 b2 : nat) (common : list nat)
    (angles : list float) : list float :=
  match common with
  | [] => angles
  | x_site :: rest =>
      let ase_angle := get_angle lib s b1 x_site b2 in
      for_x_site s b1 b2 rest (angles ++ [round lib ase_angle 3])
  end.

(** Lines 56-81: the body of the inner loop. *)
Definition pair_body (s : Structure) (b1 b2 : nat) (angles : list float) : M step :=
  distance ← struct_get_distance s b1 b2;
  if (distance <? distance_between_b_cations)%float then
    '(n1, n2) ← x_neighbors_of_pair s b1 b2;
    py_assert (bool_decide (length n1 = 6)) (coordination_message (length n1));;
    py_assert (bool_decide (length n2 = 6)) (coordination_message (length n2));;
    match common_x_anions n1 n2 with
    | [] => print (PrintStr no_common_message);; mret (Break angles)
    | common => mret (Continue (for_x_site s b1 b2 common angles))
    end
  else mret (Continue angles).

(** Line 55: [for b_site_2 in b_sites_copy], over the list as it is when
    the loop starts (the body does not change it). *)
Fixpoint for_b_site_2 (s : Structure) (b1 : nat) (pool : list nat)
    (angles : list float) : M (loop_exit * list float) :=
  match pool with
  | [] => mret (Exhausted, angles)
  | b2 :: rest =>
      r ← pair_body s b1 b2 angles;
      match r with
      | Continue angles' => for_b_site_2 s b1 rest angles'
      | Break angles' => mret (Broke, angles')
      end
  end.

(** Lines 52-53: [for b_site_1 in b_sites_copy], whose body removes from
    the very list the loop iterates.  A Python list iterator is a position
    [i] into the live list: it yields [pool[i]] and moves to [i + 1], and
    stops when [i] is past the current end.  [fuel] bounds the number of
    passes; [length pool] passes are never all used
    ([for_b_site_1_fuel]). *)
Fixpoint for_b_site_1 (fuel : nat) (s : Structure) (i : nat) (pool : list nat)
    (angles : list float) : M (list float) :=
  match pool !! i with
  | None => mret angles
  | Some b1 =>
      match fuel with
      | 0 => mret angles
      | S fuel' =>
          match list_remove b1 pool with
          | None => raise (ValueError "list.remove(x): x not in list")
          | Some pool' =>
              '(_, angles') ← for_b_site_2 s b1 pool' angles;
              for_b_site_1 fuel' s (S i) pool' angles'
          end
      end
  end.

Definition get_tilting_angles (struct : loc) (verbose : bool) : M float :=
  s ← load struct;
  let b_sites := sites_of_species s b_cation in
  let b_sites_copy := b_sites in
  angles_b_x_b ← for_b_site_1 (length b_sites_copy) s 0 b_sites_copy [];
  (if verbose then print (PrintFloats "Tilting angles: " angles_b_x_b) else mret ());;
  mret (round lib (np_mean lib angles_b_x_b) 3).

End oct_distortions.


(** ** rotations.py *)

(** Where a Python int [i] points in a sequence of [n] items: negative ints
    count from the end; [None] is IndexError. *)
Definition py_index (n : nat) (i : Z) : option nat :=
  if decide (0 ≤ i < Z.of_nat n)%Z then Some (Z.to_nat i)
  else if decide (- Z.of_nat n ≤ i < 0)%Z then Some (Z.to_nat (Z.of_nat n + i))
  else None.

Definition in_range (n : nat) (i : Z) : Prop := (- Z.of_nat n ≤ i < Z.of_nat n)%Z.

(** [structure[index]] for a caller's int. *)
Definition getitem_int (s : Structure) (i : Z) : M (nat * Site) :=
  match py_index (length (sites s)) i with
  | Some k =>
      match sites s !! k with
      | Some site => mret (k, site)
      | None => raise (IndexError "list index out of range")
      end
  | None => raise (IndexError "list index out of range")
  end.

Definition with_coords (site : Site) (c : vec3) : Site :=
  {| species_string := species_string site; coords := c; weight := weight site |}.

Definition store (l : loc) (s : Structure) : M unit := λ w,
  (Returned (),
   {| heap := <[l := s]> (heap w); py_random := py_random w;
      np_random := np_random w; stdout := stdout w;
      distance_calls := distance_calls w |}).

(** [deepcopy(struct)]: a new object, equal to the old one, that shares
    nothing with it.  A structure owns its sites, so one heap cell holds the
    whole object graph. *)
Definition alloc (s : Structure) : M loc := λ w,
  let l := fresh (dom (heap w)) in
  (Returned l,
   {| heap := <[l := s]> (heap w); py_random := py_random w;
      np_random := np_random w; stdout := stdout w;
      distance_calls := distance_calls w |}).

Definition deepcopy (struct : loc) : M loc :=
  s ← load struct;
  alloc s.

Section rotations.
Context (lib : Library).

(** Lines 16-20 of [get_center_of_mass]. *)
Fixpoint for_index (structure : loc) (sites_indexes : list Z)
    (center : vec3) (total_weight : float) : M (vec3 * float) :=
  match sites_indexes with
  | [] => mret (center, total_weight)
  | index :: rest =>
      s ← load structure;
      '(_, site) ← getitem_int s index;
      let wt := weight site in
      for_index structure rest (vadd center (vscale (coords site) wt))
        (total_weight + wt)%float
  end.

Definition get_center_of_mass (structure : loc) (sites_indexes : list Z) : M vec3 :=
  '(center, total_weight) ← for_index structure sites_indexes vzero 0%float;
  mret (vdiv center total_weight).

(** Lines 40-46 of [get_a_cation_sites]. *)
Fixpoint for_carbon (s : Structure) (radius_cutoff : float)
    (carbon_sites : list (nat * Site)) (fa_molecules : list (list nat))
    (count : nat) : M (list (list nat)) :=
  match carbon_sites with
  | [] => mret fa_molecules
  | (index, carbon) :: rest =>
      let neighbors := get_neighbors lib s carbon radius_cutoff in
      print (PrintStrings (nn_species <$> neighbors));;
      let fa_molecules := fa_molecules ++ [[index]] in
      match fa_molecules !! count with
      | None => raise (IndexError "list index out of range")
      | Some molecule =>
          let fa_molecules :=
            <[count := molecule ++ (site_index <$> neighbors)]> fa_molecules in
          for_carbon s radius_cutoff rest fa_molecules (S count)
      end
  end.

Definition get_a_cation_sites (struct : loc) (a_cation_center_species : string)
    (radius_cutoff : float) : M (list (list nat)) :=
  s ← load struct;
  let carbon_sites :=
    filter (λ p, species_string p.2 = a_cation_center_species) (enumerate s) in
  fa_molecules ← for_carbon s radius_cutoff carbon_sites [] 0;
  py_assert (bool_decide
    (size (list_to_set (length <$> fa_molecules) : gset nat) = 1)) "";;
  mret fa_molecules.

(** [random.randrange(start, stop)] *)
Definition randrange (start stop : Z) : M Z := λ w,
  if decide (start < stop)%Z then
    let '(k, g) := randbelow lib (stop - start) (py_random w) in
    (Returned (start + k)%Z,
     {| heap := heap w; py_random := g; np_random := np_random w;
        stdout := stdout w; distance_calls := distance_calls w |})
  else (Raised (ValueError "empty range for randrange()"), w).

(** [struct.perturb(distance)] of pymatgen: every site in turn is moved by
    a fresh random vector of that length. *)
Fixpoint perturb_sites (lat : vec3 * vec3 * vec3) (distance : float)
    (l : list Site) (g : RandomState) : list Site * RandomState :=
  match l with
  | [] => ([], g)
  | site :: rest =>
      let '(c, g) := perturb_coords lib lat distance (coords site) g in
      let '(rest, g) := perturb_sites lat distance rest g in
      (with_coords site c :: rest, g)
  end.

Definition with_np_random {A} (f : RandomState → A * RandomState) : M A := λ w,
  let '(a, g) := f (np_random w) in
  (Returned a,
   {| heap := heap w; py_random := py_random w; np_random := g;
      stdout := stdout w; distance_calls := distance_calls w |}).

Definition perturb (struct : loc) (distance : float) : M unit :=
  s ← load struct;
  l ← with_np_random (perturb_sites (lattice s) distance (sites s));
  store struct {| lattice := lattice s; sites := l |}.

(** [struct.rotate_sites(indices, theta, axis, anchor, to_unit_cell=False)]
    of pymatgen: each listed site in turn is replaced by its rotated
    image. *)
Fixpoint rotate_sites (struct : loc) (indices : list Z) (theta : float)
    (axis anchor : vec3) : M unit :=
  match indices with
  | [] => mret ()
  | i :: rest =>
      s ← load struct;
      '(k, site) ← getitem_int s i;
      let new_site := with_coords site (rotate_coords lib axis theta anchor (coords site)) in
      store struct {| lattice := lattice s; sites := <[k := new_site]> (sites s) |};;
      rotate_sites struct rest theta axis anchor
  end.

(** Lines 73-83 of [rotate_a_cation]. *)
Fixpoint for_sites (struct_rotated : loc) (fa_molecules : list (list Z))
    (maximum_angle : Z) (rotation_axis : vec3) : M unit :=
  match fa_molecules with
  | [] => mret ()
  | sites :: rest =>
      angle ← randrange (- maximum_angle) maximum_angle;
      center_of_mass ← get_center_of_mass struct_rotated sites;
      angle_f ← float_of_int angle;
      rotate_sites struct_rotated sites (angle_f * np_pi / 180)%float
        rotation_axis center_of_mass;;
      for_sites struct_rotated rest maximum_angle rotation_axis
  end.

Definition rotate_a_cation (struct : loc) (fa_molecules : list (list Z))
    (maximum_angle : Z) (rotation_axis : vec3) : M loc :=
  struct_rotated ← deepcopy struct;
  perturb struct_rotated 0.000001%float;;
  for_sites struct_rotated fa_molecules maximum_angle rotation_axis;;
  mret struct_rotated.

End rotations.

(** ** A small library and a few structures to run the code on

    [toy] stands in for pymatgen, ASE, numpy and [random] on structures
    whose cell is so large that no periodic image is nearer than the site
    itself: distances are Euclidean, a neighbour search returns the other
    sites within the radius, every bridge is straight. *)

Definition vsub (a b : vec3) : vec3 :=
  let '(a0, a1, a2) := a in
  let '(b0, b1, b2) := b in
  (a0 - b0, a1 - b1, a2 - b2)%float.

Definition vdot (a b : vec3) : float :=
  let '(a0, a1, a2) := a in
  let '(b0, b1, b2) := b in
  (a0 * b0 + a1 * b1 + a2 * b2)%float.

Definition euclid (a b : vec3) : float :=
  let d := vsub a b in PrimFloat.sqrt (vdot d d).

Definition float_of_nat (n : nat) : float :=
  SF2Prim (binary_normalize 53 1024 (Z.of_nat n) 0 false).

Definition toy_get_distance (s : Structure) (i j : nat) : float :=
  match sites s !! i, sites s !! j with
  | Some a, Some b => euclid (coords a) (coords b)
  | _, _ => nan
  end.

Definition toy_get_neighbors (s : Structure) (center : Site) (r : float) : list Neighbor :=
  omap (λ '(i, site),
          let d := euclid (coords center) (coords site) in
          if ((0.00000001 <? d) && (d <=? r))%float
          then Some {| site_index := i; nn_species := species_string site |}
          else None)
       (enumerate s).

Definition toy_get_nn_data (cutoff : float) (s : Structure) (n : nat) : list Neighbor :=
  match sites s !! n with
  | Some center => toy_get_neighbors s center cutoff
  | None => []
  end.

(** Round half to even, to an integer, as numpy's [rint]. *)
Definition rint (x : float) : float :=
  let big := 4503599627370496%float in          (* 2^52 *)
  if (PrimFloat.abs x <? big)%float then
    if (0 <=? x)%float then (x + big - big)%float else (x - big + big)%float
  else x.

Fixpoint pow10 (n : nat) : float :=
  match n with
  | 0 => 1%float
  | S n => (10 * pow10 n)%float
  end.

Definition toy_round (x : float) (ndigits : nat) : float :=
  (rint (x * pow10 ndigits) / pow10 ndigits)%float.

Definition toy_np_mean (l : list float) : float :=
  (foldl PrimFloat.add 0 l / float_of_nat (length l))%float.

Definition toy_randbelow (n : Z) (g : RandomState) : Z * RandomState :=
  ((Z.of_N g `mod` n)%Z, (g * 25214903917 + 11)%N).

Lemma toy_randbelow_range n g : (0 < n)%Z → (0 ≤ (toy_randbelow n g).1 < n)%Z.
Proof. intros Hn. simpl. by apply Z.mod_pos_bound. Qed.

Definition toy : Library := {|
  get_distance := toy_get_distance;
  get_neighbors := toy_get_neighbors;
  get_nn_data := toy_get_nn_data;
  get_angle := λ _ _ _ _, 180%float;
  round := toy_round;
  np_mean := toy_np_mean;
  randbelow := toy_randbelow;
  randbelow_range := toy_randbelow_range;
  perturb_coords := λ _ distance c g, (vadd c (distance, 0, 0)%float, (g + 1)%N);
  (* a half turn about the axis through the anchor, whatever theta *)
  rotate_coords := λ axis _ anchor c,
    let d := vsub c anchor in
    let along := vscale axis (vdot d axis / vdot axis axis)%float in
    vsub (vadd anchor (vadd along along)) d;
|}.

Definition atom (sp : string) (wt x y z : float) : Site :=
  {| species_string := sp; coords := (x, y, z); weight := wt |}.

Definition lead := atom "Pb" 207.2.
Definition iodide := atom "I" 126.90447.
Definition carbon := atom "C" 12.011.
Definition nitrogen := atom "N" 14.007.

Definition big_cell : vec3 * vec3 * vec3 :=
  ((100, 0, 0), (0, 100, 0), (0, 0, 100))%float.

Definition structure_of (l : list Site) : Structure :=
  {| lattice := big_cell; sites := l |}.

(** Four corner-sharing octahedra on a square of side 6: sites 0 to 3 are
    the Pb, each with six I at distance 3; neighbouring Pb share one. *)
Definition square : Structure := structure_of [
  lead 0 0 0; lead 6 0 0; lead 0 6 0; lead 6 6 0;
  iodide 3 0 0; iodide 0 3 0; iodide 6 3 0; iodide 3 6 0;
  iodide (-3) 0 0; iodide 0 (-3) 0; iodide 0 0 3; iodide 0 0 (-3);
  iodide 9 0 0; iodide 6 (-3) 0; iodide 6 0 3; iodide 6 0 (-3);
  iodide (-3) 6 0; iodide 0 9 0; iodide 0 6 3; iodide 0 6 (-3);
  iodide 9 6 0; iodide 6 9 0; iodide 6 6 3; iodide 6 6 (-3)
]%float.

(** Two octahedra sharing the I at (3, 0, 0). *)
Definition two_octahedra : Structure := structure_of [
  lead 0 0 0; lead 6 0 0;
  iodide 3 0 0;
  iodide (-3) 0 0; iodide 0 3 0; iodide 0 (-3) 0; iodide 0 0 3; iodide 0 0 (-3);
  iodide 9 0 0; iodide 6 3 0; iodide 6 (-3) 0; iodide 6 0 3; iodide 6 0 (-3)
]%float.

(** As [two_octahedra], with the I at (0, 0, -3) missing: site 0 has five. *)
Definition five_fold : Structure := structure_of [
  lead 0 0 0; lead 6 0 0;
  iodide 3 0 0;
  iodide (-3) 0 0; iodide 0 3 0; iodide 0 (-3) 0; iodide 0 0 3;
  iodide 9 0 0; iodide 6 3 0; iodide 6 (-3) 0; iodide 6 0 3; iodide 6 0 (-3)
]%float.

(** Site 1 is 6.5 from site 0 and shares no I with it at a B-X cutoff of
    3.25; site 2 shares the I at (0, 3, 0) with site 0. *)
Definition no_bridge : Structure := structure_of [
  lead 0 0 0; lead 6.5 0 0; lead 0 6 0;
  iodide 3 0 0; iodide (-3) 0 0; iodide 0 3 0; iodide 0 (-3) 0; iodide 0 0 3; iodide 0 0 (-3);
  iodide 3.5 0 0; iodide 9.5 0 0; iodide 6.5 3 0; iodide 6.5 (-3) 0; iodide 6.5 0 3; iodide 6.5 0 (-3);
  iodide 3 6 0; iodide (-3) 6 0; iodide 0 9 0; iodide 0 6 3; iodide 0 6 (-3)
]%float.

(** Two C-N-N units, 10 apart. *)
Definition molecules : Structure := structure_of [
  carbon 0 0 0; nitrogen 1 1 0; nitrogen (-1) 1 0;
  carbon 10 0 0; nitrogen 11 1 0; nitrogen 9 1 0
]%float.

(** As [molecules], with a third N next to the second C. *)
Definition uneven_molecules : Structure := structure_of [
  carbon 0 0 0; nitrogen 1 1 0; nitrogen (-1) 1 0;
  carbon 10 0 0; nitrogen 11 1 0; nitrogen 9 1 0; nitrogen 10 (-1) 0
]%float.

(** A world whose heap holds [s] at location 0. *)
Definition world_with (s : Structure) : World :=
  {| heap := {[ 0 := s ]}; py_random := 42%N; np_random := 7%N;
     stdout := []; distance_calls := [] |}.

(** The defaults of [get_tilting_angles], on the structure at location 0. *)
Definition default_run (verbose : bool) : M float :=
  get_tilting_angles toy "Pb" "I" 6.6 3.8 "neighbors" 0 verbose.

(** A world that differs from [world_with two_octahedra] in everything but
    the object at location 0. *)
Definition later_world : World :=
  {| heap := {[ 0 := two_octahedra; 1 := square ]};
     py_random := 2024%N; np_random := 11%N;
     stdout := [PrintStr "earlier output"]; distance_calls := [(5, 6)] |}.


(** ** Specifications for [M] *)

(** A computation that neither reads nor writes the world, apart from
    appending to the two logs. *)
Definition only_logs {A} (m : M A) : Prop :=
  ∃ r out calls, ∀ w, m w = (r, logs out calls w).

(** Partial-correctness triples with an exceptional postcondition. *)
Definition triple {A} (P : World → Prop) (m : M A)
    (Q : A → World → Prop) (E : exn → World → Prop) : Prop :=
  ∀ w, P w → match m w with
             | (Returned a, w') => Q a w'
             | (Raised e, w') => E e w'
             end.


(** ** Properties of the tilting-angle engine *)

(** The items at positions 0, 2, 4, ... of a list. *)
Fixpoint evens (l : list nat) : list nat :=
  match l with
  | a :: _ :: l' => a :: evens l'
  | _ => l
  end.

(** The pairs the two loops go through when no inner loop is left early,
    from position [length pre] of the pool [pre ++ post] on: the site at
    that position with every other site of the pool, then the same two
    places further on in what is left of the pool. *)
Fixpoint enumerated_pairs (pre post : list nat) : list (nat * nat) :=
  match post with
  | [] => []
  | b1 :: post' =>
      ((b1 ,.) <$> (pre ++ post')) ++
      match post' with
      | [] => []
      | x :: post'' => enumerated_pairs (pre ++ [x]) post''
      end
  end.

(** A list of pairs in which no pair comes twice, in either order, and no
    pair is of a site with itself. *)
Definition visits_once (calls : list (nat * nat)) : Prop :=
  NoDup calls ∧ ∀ q, q ∈ calls → q.1 ≠ q.2 ∧ (q.2, q.1) ∉ calls.

Section oct_distortions_properties.
Context (lib : Library).
Variables (b_cation x_anion : string).
Variables (distance_between_b_cations distance_between_b_x : float).
Variable (algorithm : string).

(** [x] is some B-X-B angle of [s], rounded to three decimals. *)
Definition rounded_angle (s : Structure) (x : float) : Prop :=
  ∃ b1 x_site b2, x = round lib (get_angle lib s b1 x_site b2) 3.

(** The pair [q], if within the cutoff and resolved, has six and six. *)
Definition six_fold (s : Structure) (q : nat * nat) : Prop :=
  ∀ n1 n2 w0,
    (get_distance lib s q.1 q.2 <? distance_between_b_cations)%float = true →
    x_neighbors_of_pair lib x_anion distance_between_b_x algorithm s q.1 q.2 w0
      = (Returned (n1, n2), w0) →
    length n1 = 6 ∧ length n2 = 6.

(** If the pair [q] is within the cutoff, resolved, and one of its lists
    has not six entries, [e] is the assertion error for the first such. *)
Definition names_count (s : Structure) (e : exn) (q : nat * nat) : Prop :=
  ∀ n1 n2 w0,
    (get_distance lib s q.1 q.2 <? distance_between_b_cations)%float = true →
    x_neighbors_of_pair lib x_anion distance_between_b_x algorithm s q.1 q.2 w0
      = (Returned (n1, n2), w0) →
    length n1 ≠ 6 ∨ length n2 ≠ 6 →
    e = AssertionError
          (coordination_message b_cation x_anion
             (if decide (length n1 = 6) then length n2 else length n1)).

(** The calls logged since [c0] were all for six-fold pairs. *)
Definition all_six_fold (s : Structure) (c0 : list (nat * nat)) (w : World) : Prop :=
  ∃ new, distance_calls w = c0 ++ new ∧ Forall (six_fold s) new.

Definition all_names_count (s : Structure) (c0 : list (nat * nat))
    (e : exn) (w : World) : Prop :=
  ∃ new, distance_calls w = c0 ++ new ∧ Forall (names_count s e) new.

(** The angles the pair [q] adds to the list: none when it is beyond the
    cutoff, else one for each anion its two lists have in common. *)
Definition bridge_angles (s : Structure) (w : World) (q : nat * nat) : list float :=
  if (get_distance lib s q.1 q.2 <? distance_between_b_cations)%float then
    match (x_neighbors_of_pair lib x_anion distance_between_b_x algorithm
             s q.1 q.2 w).1 with
    | Returned (n1, n2) => for_x_site lib s q.1 q.2 (common_x_anions n1 n2) []
    | Raised _ => []
    end
  else [].

(** The pair [q], if within the cutoff, has six and six anions and at least
    one in common. *)
Definition bridged (s : Structure) (w : World) (q : nat * nat) : Prop :=
  (get_distance lib s q.1 q.2 <? distance_between_b_cations)%float = true →
  match (x_neighbors_of_pair lib x_anion distance_between_b_x algorithm
           s q.1 q.2 w).1 with
  | Returned (n1, n2) =>
      length n1 = 6 ∧ length n2 = 6 ∧ common_x_anions n1 n2 ≠ []
  | Raised _ => False
  end.

(** The exceptions the engine raises: the assertion error for a count that
    is not six, and the unbound local under an unknown algorithm. *)
Definition engine_error (e : exn) : Prop :=
  (∃ k, k ≠ 6 ∧ e = AssertionError (coordination_message b_cation x_anion k)) ∨
  (e = UnboundLocalError "x_neighbors_of_b_1" ∧
   algorithm ≠ "neighbors" ∧ algorithm ≠ "crystal_nn").

End oct_distortions_properties.

(** ** Properties of the rotator and the locator *)

(** Every object but the one at [l] is as in the heap [h0]. *)
Definition frame (h0 : gmap loc Structure) (l : loc) (w : World) : Prop :=
  ∀ l0, l0 ≠ l → heap w !! l0 = h0 !! l0.

(** [m] writes to no object but the one at [l], whether it returns or
    raises. *)
Definition writes_only {A} (l : loc) (m : M A) : Prop :=
  ∀ h0, triple (frame h0 l) m (λ _, frame h0 l) (λ _, frame h0 l).

(** The object at [l] is a structure of [n] sites. *)
Definition shape (n : nat) (l : loc) (w : World) : Prop :=
  ∃ s, heap w !! l = Some s ∧ length (sites s) = n.

(** The largest maximum_angle whose draws all convert to a float: the
    conversion overflows from [2^1024 - 2^970] on. *)
Definition angle_bound : Z := (2 ^ 1024 - 2 ^ 970)%Z.

(** The groups of the locator as the spec words them: for every site of the
    marker species, in structure order, the marker's index followed by the
    indices of the sites found within the radius of it. *)
Definition molecule_groups (lib : Library) (s : Structure) (marker : string)
    (radius : float) : list (list nat) :=
  (λ p, p.1 :: (site_index <$> get_neighbors lib s p.2 radius))
    <$> filter (λ p, species_string p.2 = marker) (enumerate s).

(** What the locator prints on the way: the species around each marker. *)
Definition neighbor_prints (lib : Library) (s : Structure) (marker : string)
    (radius : float) : list printed :=
  (λ p, PrintStrings (nn_species <$> get_neighbors lib s p.2 radius))
    <$> filter (λ p, species_string p.2 = marker) (enumerate s).

(** The site a Python int points at, if any. *)
Definition site_at (s : Structure) (i : Z) : option Site :=
  k ← py_index (length (sites s)) i; sites s !! k.

(** The mass-weighted mean position of a group of sites, summed from the
    left as the loop of [get_center_of_mass] does. *)
Definition center_of (group : list Site) : vec3 :=
  vdiv (foldl (λ c x, vadd c (vscale (coords x) (weight x))) vzero group)
       (foldl (λ t x, (t + weight x)%float) 0%float group).

(** What a rotation leaves of a structure: species and weight, site by
    site. *)
Definition atoms (s : Structure) : list (string * float) :=
  (λ x, (species_string x, weight x)) <$> sites s.

(** The object at [l] is a structure with the property [Q]. *)
Definition holds (Q : Structure → Prop) (l : loc) (w : World) : Prop :=
  ∃ s, heap w !! l = Some s ∧ Q s.

(** The groups of the locator as [rotate_a_cation] takes them. *)
Definition as_ints (groups : list (list nat)) : list (list Z) :=
  (λ g : list nat, Z.of_nat <$> g) <$> groups.

#[global] Instance in_range_dec n i : Decision (in_range n i).
Proof. unfold in_range. apply _. Defined.

(** The copy [rotate_a_cation] works on, and the world once it is made and
    perturbed: a new object at a fresh location, every site moved by
    [perturb]. *)
Definition perturbed_copy (lib : Library) (s : Structure) (w : World) : loc * World :=
  let l := fresh (dom (heap w)) in
  let moved := perturb_sites lib (lattice s) 0.000001%float (sites s) (np_random w) in
  (l, {| heap := <[l := {| lattice := lattice s; sites := moved.1 |}]> (heap w);
         py_random := py_random w; np_random := moved.2;
         stdout := stdout w; distance_calls := distance_calls w |}).
(** ** Reasoning about [M] *)

Lemma logs_nil w : logs [] [] w = w.
Proof. destruct w; unfold logs; simpl. by rewrite !app_nil_r. Qed.

Lemma logs_logs o1 c1 o2 c2 w :
  logs o2 c2 (logs o1 c1 w) = logs (o1 ++ o2) (c1 ++ c2) w.
Proof. unfold logs; simpl. by rewrite !app_assoc. Qed.

Lemma run_bind {A B} (m : M A) (k : A → M B) w :
  (m ≫= k) w = match m w with
               | (Returned a, w') => k a w'
               | (Raised e, w') => (Raised e, w')
               end.
Proof. done. Qed.

Lemma only_logs_ret {A} (a : A) : only_logs (mret a).
Proof. exists (Returned a), [], []. intros w. by rewrite logs_nil. Qed.

Lemma only_logs_raise {A} e : only_logs (@raise A e).
Proof. exists (Raised e), [], []. intros w. by rewrite logs_nil. Qed.

Lemma only_logs_bind {A B} (m : M A) (k : A → M B) :
  only_logs m → (∀ a, only_logs (k a)) → only_logs (m ≫= k).
Proof.
  intros (r & o1 & c1 & Hm) Hk. destruct r as [a|e].
  - destruct (Hk a) as (r & o2 & c2 & Hka).
    exists r, (o1 ++ o2), (c1 ++ c2). intros w.
    unfold mbind, M_bind. by rewrite Hm, Hka, logs_logs.
  - exists (Raised e), o1, c1. intros w.
    unfold mbind, M_bind. by rewrite Hm.
Qed.

Lemma only_logs_print p : only_logs (print p).
Proof. by exists (Returned ()), [p], []. Qed.

Lemma only_logs_assert b msg : only_logs (py_assert b msg).
Proof. destruct b; [apply only_logs_ret | apply only_logs_raise]. Qed.

Lemma only_logs_getitem s i : only_logs (getitem s i).
Proof. unfold getitem. destruct (sites s !! i); [apply only_logs_ret | apply only_logs_raise]. Qed.

Lemma triple_ret {A} (P : World → Prop) (a : A) (Q : A → World → Prop) E :
  (∀ w, P w → Q a w) → triple P (mret a) Q E.
Proof. intros H w Hw. by apply H. Qed.

Lemma triple_raise {A} (P : World → Prop) e (Q : A → World → Prop) (E : exn → World → Prop) :
  (∀ w, P w → E e w) → triple P (raise e) Q E.
Proof. intros H w Hw. by apply H. Qed.

Lemma triple_bind {A B} P (m : M A) (k : A → M B) Q R E :
  triple P m Q E → (∀ a, triple (Q a) (k a) R E) → triple P (m ≫= k) R E.
Proof.
  intros Hm Hk w Hw. specialize (Hm w Hw). unfold mbind, M_bind.
  destruct (m w) as [[a|e] w']; [by apply Hk | done].
Qed.

Lemma triple_weaken {A} (P P' : World → Prop) (m : M A) (Q Q' : A → World → Prop)
    (E E' : exn → World → Prop) :
  triple P' m Q' E' → (∀ w, P w → P' w) → (∀ a w, Q' a w → Q a w) →
  (∀ e w, E' e w → E e w) → triple P m Q E.
Proof.
  intros Hm HP HQ HE w Hw. specialize (Hm w (HP w Hw)).
  destruct (m w) as [[a|e] w']; auto.
Qed.

(** ** Facts about [list.remove] and the enumeration of sites *)

Lemma list_remove_length x l l' : list_remove x l = Some l' → length l = S (length l').
Proof.
  revert l'. induction l as [|y l IH]; intros l'; simpl; [done|].
  destruct (decide (x = y)); [by intros [= ->]|].
  destruct (list_remove x l) as [k|] eqn:Hk; simpl; [|done].
  intros [= <-]. simpl. f_equal. by apply IH.
Qed.

Lemma list_remove_elem_of x l : x ∈ l → is_Some (list_remove x l).
Proof.
  induction l as [|y l IH]; [by intros ?%elem_of_nil|].
  intros [->|Hin]%elem_of_cons; simpl.
  - rewrite decide_True by done. eauto.
  - destruct (decide (x = y)); [eauto|].
    destruct (IH Hin) as [k ->]. simpl. eauto.
Qed.

Lemma sites_of_species_lookup s sp i :
  i ∈ sites_of_species s sp ↔ ∃ site, sites s !! i = Some site ∧ species_string site = sp.
Proof.
  unfold sites_of_species, enumerate. rewrite list_elem_of_fmap. split.
  - intros ([j site] & -> & Hin). apply list_elem_of_filter in Hin as [Hsp Hin].
    apply elem_of_lookup_imap in Hin as (k & x & [= -> ->] & Hk). eauto.
  - intros (site & Hi & Hsp). exists (i, site). split; [done|].
    apply list_elem_of_filter. split; [done|].
    apply elem_of_lookup_imap. eauto.
Qed.

(** ** The tilting-angle engine *)

Section oct_distortions_facts.
Context (lib : Library).
Variables (b_cation x_anion : string).
Variables (distance_between_b_cations distance_between_b_x : float).
Variable (algorithm : string).

Local Abbreviation neighbors_of := (x_neighbors_of_pair lib x_anion distance_between_b_x algorithm).
Local Abbreviation message := (coordination_message b_cation x_anion).
Local Abbreviation body :=
  (pair_body lib b_cation x_anion distance_between_b_cations
      distance_between_b_x algorithm).
Local Abbreviation inner :=
  (for_b_site_2 lib b_cation x_anion distance_between_b_cations
      distance_between_b_x algorithm).
Local Abbreviation outer :=
  (for_b_site_1 lib b_cation x_anion distance_between_b_cations
      distance_between_b_x algorithm).
Local Abbreviation tilting :=
  (get_tilting_angles lib b_cation x_anion distance_between_b_cations
      distance_between_b_x algorithm).
Local Abbreviation rounded := (rounded_angle lib).
Local Abbreviation sixfold :=
  (six_fold lib x_anion distance_between_b_cations distance_between_b_x algorithm).
Local Abbreviation names :=
  (names_count lib b_cation x_anion distance_between_b_cations
      distance_between_b_x algorithm).
Local Abbreviation all_sixfold :=
  (all_six_fold lib x_anion distance_between_b_cations distance_between_b_x algorithm).
Local Abbreviation all_names :=
  (all_names_count lib b_cation x_anion distance_between_b_cations
      distance_between_b_x algorithm).
Local Abbreviation angles_of :=
  (bridge_angles lib x_anion distance_between_b_cations distance_between_b_x algorithm).
Local Abbreviation is_bridged :=
  (bridged lib x_anion distance_between_b_cations distance_between_b_x algorithm).
Local Abbreviation is_engine_error := (engine_error b_cation x_anion algorithm).
Local Abbreviation within s b1 b2 :=
  ((get_distance lib s b1 b2 <? distance_between_b_cations)%float = true).

(** Resolving the coordination lists leaves the world alone. *)
Lemma x_neighbors_of_pair_pure s b1 b2 :
  ∃ r, ∀ w, neighbors_of s b1 b2 w = (r, w).
Proof.
  unfold x_neighbors_of_pair.
  destruct (decide (algorithm = "neighbors")).
  - unfold mbind, M_bind, getitem.
    destruct (sites s !! b1), (sites s !! b2); by eexists.
  - destruct (decide (algorithm = "crystal_nn")); by eexists.
Qed.

Lemma x_neighbors_of_pair_world s b1 b2 w w1 :
  neighbors_of s b1 b2 w1 = ((neighbors_of s b1 b2 w).1, w1).
Proof. destruct (x_neighbors_of_pair_pure s b1 b2) as [r Hr]. by rewrite !Hr. Qed.

(** The body of the inner loop, branch by branch. *)
Lemma pair_body_eq s b1 b2 angles w :
  body s b1 b2 angles w =
    let w1 := logs [] [(b1, b2)] w in
    if (get_distance lib s b1 b2 <? distance_between_b_cations)%float then
      match (neighbors_of s b1 b2 w).1 with
      | Raised e => (Raised e, w1)
      | Returned (n1, n2) =>
          if decide (length n1 = 6) then
            if decide (length n2 = 6) then
              match common_x_anions n1 n2 with
              | [] => (Returned (Break angles),
                       logs [PrintStr (no_common_message b_cation x_anion)] [] w1)
              | x :: l => (Returned (Continue (for_x_site lib s b1 b2 (x :: l) angles)), w1)
              end
            else (Raised (AssertionError (message (length n2))), w1)
          else (Raised (AssertionError (message (length n1))), w1)
      end
    else (Returned (Continue angles), w1).
Proof.
  unfold pair_body, mbind, M_bind, struct_get_distance. simpl.
  destruct (_ <? _)%float; [|done].
  rewrite (x_neighbors_of_pair_world s b1 b2 w).
  destruct (neighbors_of s b1 b2 w).1 as [[n1 n2]|e]; [|done].
  unfold py_assert.
  destruct (decide (length n1 = 6)) as [H1|H1];
    [rewrite (bool_decide_eq_true_2 _ H1) | by rewrite (bool_decide_eq_false_2 _ H1)].
  destruct (decide (length n2 = 6)) as [H2|H2];
    [rewrite (bool_decide_eq_true_2 _ H2) | by rewrite (bool_decide_eq_false_2 _ H2)].
  simpl. by destruct (common_x_anions n1 n2).
Qed.

Lemma for_b_site_2_cons s b1 b2 rest angles w :
  inner s b1 (b2 :: rest) angles w =
    match body s b1 b2 angles w with
    | (Returned (Continue angles'), w') => inner s b1 rest angles' w'
    | (Returned (Break angles'), w') => (Returned (Broke, angles'), w')
    | (Raised e, w') => (Raised e, w')
    end.
Proof.
  simpl. unfold mbind, M_bind.
  by destruct (body s b1 b2 angles w) as [[[?|?]|?] ?].
Qed.

(** [length pool] passes of the outer loop are enough: one more changes
    nothing. *)
Lemma for_b_site_1_fuel fuel s i pool angles w :
  length pool ≤ fuel + i →
  outer (S fuel) s i pool angles w = outer fuel s i pool angles w.
Proof.
  revert i pool angles w. induction fuel as [|fuel IH]; intros i pool angles w Hlen.
  - simpl. by rewrite lookup_ge_None_2 by lia.
  - change (outer (S (S fuel)) s i pool angles w) with
      (match pool !! i with
       | None => mret angles
       | Some b1 =>
           match list_remove b1 pool with
           | None => raise (ValueError "list.remove(x): x not in list")
           | Some pool' =>
               '(_, angles') ← inner s b1 pool' angles;
               outer (S fuel) s (S i) pool' angles'
           end
       end w).
    simpl. destruct (pool !! i) as [b1|]; [|done].
    destruct (list_remove b1 pool) as [pool'|] eqn:Hrm; [|done].
    apply list_remove_length in Hrm.
    unfold mbind, M_bind.
    destruct (inner s b1 pool' angles w) as [[[? angles']|?] w']; [|done].
    apply IH. lia.
Qed.

(** *** The pipeline only appends to the logs *)

Lemma only_logs_pair_body s b1 b2 angles : only_logs (body s b1 b2 angles).
Proof.
  pose proof (pair_body_eq s b1 b2 angles) as Heq.
  assert (∃ r, ∀ w, (neighbors_of s b1 b2 w).1 = r) as [r Hr].
  { destruct (x_neighbors_of_pair_pure s b1 b2) as [r Hr].
    exists r. intros w. by rewrite Hr. }
  destruct (get_distance lib s b1 b2 <? distance_between_b_cations)%float eqn:Hd.
  2: { exists (Returned (Continue angles)), [], [(b1, b2)]. intros w.
       by rewrite Heq. }
  destruct r as [[n1 n2]|e].
  2: { exists (Raised e), [], [(b1, b2)]. intros w. by rewrite Heq, Hr. }
  destruct (decide (length n1 = 6)) as [H1|H1].
  2: { eexists _, [], [(b1, b2)]. intros w. rewrite Heq, Hr. simpl.
       by rewrite decide_False. }
  destruct (decide (length n2 = 6)) as [H2|H2].
  2: { eexists _, [], [(b1, b2)]. intros w. rewrite Heq, Hr. simpl.
       by rewrite decide_True, decide_False. }
  destruct (common_x_anions n1 n2) as [|x l] eqn:Hc.
  - eexists _, [PrintStr (no_common_message b_cation x_anion)], [(b1, b2)].
    intros w. rewrite Heq, Hr. simpl.
    by rewrite decide_True, decide_True, Hc, logs_logs.
  - eexists _, [], [(b1, b2)]. intros w. rewrite Heq, Hr. simpl.
    by rewrite decide_True, decide_True, Hc.
Qed.

Lemma only_logs_for_b_site_2 s b1 pool angles : only_logs (inner s b1 pool angles).
Proof.
  revert angles. induction pool as [|b2 rest IH]; intros angles; simpl.
  - apply only_logs_ret.
  - apply only_logs_bind; [apply only_logs_pair_body|].
    intros [a|a]; [apply IH | apply only_logs_ret].
Qed.

Lemma only_logs_for_b_site_1 fuel s i pool angles :
  only_logs (outer fuel s i pool angles).
Proof.
  revert i pool angles. induction fuel as [|fuel IH]; intros i pool angles; simpl.
  - destruct (pool !! i); apply only_logs_ret.
  - destruct (pool !! i) as [b1|]; [|apply only_logs_ret].
    destruct (list_remove b1 pool) as [pool'|]; [|apply only_logs_raise].
    apply only_logs_bind; [apply only_logs_for_b_site_2|].
    intros [? a]. apply IH.
Qed.

(** C9: two calls on a structure that is the same at both calls return the
    same value or raise the same exception, print the same lines, and
    leave the heap and both random generators as they found them; the
    worlds [w1] and [w2] of the two calls may differ in everything but the
    structure. *)
Theorem get_tilting_angles_deterministic struct verbose s w1 w2 :
  heap w1 !! struct = Some s →
  heap w2 !! struct = Some s →
  ∃ r out calls,
    get_tilting_angles lib b_cation x_anion distance_between_b_cations
        distance_between_b_x algorithm struct verbose w1 = (r, logs out calls w1) ∧
    get_tilting_angles lib b_cation x_anion distance_between_b_cations
        distance_between_b_x algorithm struct verbose w2 = (r, logs out calls w2).
Proof.
  intros H1 H2.
  set (b_sites := sites_of_species s b_cation).
  assert (only_logs
    (angles ← outer (length b_sites) s 0 b_sites [];
     (if verbose then print (PrintFloats "Tilting angles: " angles) else mret ());;
     mret (round lib (np_mean lib angles) 3))) as (r & out & calls & Hrun).
  { apply only_logs_bind; [apply only_logs_for_b_site_1|]. intros angles.
    apply only_logs_bind; [|intros ?; apply only_logs_ret].
    destruct verbose; [apply only_logs_print | apply only_logs_ret]. }
  exists r, out, calls.
  unfold get_tilting_angles. unfold mbind at 1 4, M_bind at 1 4, load.
  rewrite H1, H2. fold b_sites. by rewrite !Hrun.
Qed.

(** *** Invariants of the two loops *)

Lemma for_b_site_2_triple s b1 (Inv : list float → World → Prop) E :
  (∀ b2 angles,
     triple (Inv angles) (body s b1 b2 angles)
       (λ r w, match r with Continue a | Break a => Inv a w end) E) →
  ∀ pool angles,
    triple (Inv angles) (inner s b1 pool angles) (λ r w, Inv r.2 w) E.
Proof.
  intros Hbody pool. induction pool as [|b2 rest IH]; intros angles; simpl.
  - by apply triple_ret.
  - eapply triple_bind; [apply Hbody|].
    intros [a|a]; [apply IH | by apply triple_ret].
Qed.

Lemma for_b_site_1_triple s (Inv : list float → World → Prop) E :
  (∀ b1 b2 angles,
     triple (Inv angles) (body s b1 b2 angles)
       (λ r w, match r with Continue a | Break a => Inv a w end) E) →
  (∀ angles w msg, Inv angles w → E (ValueError msg) w) →
  ∀ fuel i pool angles,
    triple (Inv angles) (outer fuel s i pool angles) Inv E.
Proof.
  intros Hbody Hrm fuel.
  induction fuel as [|fuel IH]; intros i pool angles; simpl.
  - destruct (pool !! i); by apply triple_ret.
  - destruct (pool !! i) as [b1|]; [|by apply triple_ret].
    destruct (list_remove b1 pool) as [pool'|]; [|apply triple_raise; eauto].
    eapply triple_bind; [by apply for_b_site_2_triple|].
    intros [? a]. apply IH.
Qed.

(** *** C5: rounding *)

Lemma for_x_site_rounded s b1 b2 common angles :
  Forall (rounded s) angles →
  Forall (rounded s) (for_x_site lib s b1 b2 common angles).
Proof.
  revert angles. induction common as [|x rest IH]; intros angles Hall; simpl; [done|].
  apply IH, Forall_app. split; [done|].
  apply Forall_singleton. by exists b1, x, b2.
Qed.

Lemma pair_body_rounded s b1 b2 angles :
  triple (λ _, Forall (rounded s) angles) (body s b1 b2 angles)
    (λ r _, match r with Continue a | Break a => Forall (rounded s) a end)
    (λ _ _, True).
Proof.
  intros w Hall. rewrite pair_body_eq. simpl.
  destruct (_ <? _)%float; [|done].
  destruct (neighbors_of s b1 b2 w).1 as [[n1 n2]|e]; [|done].
  do 2 (destruct (decide _); [|done]).
  destruct (common_x_anions n1 n2) as [|x l]; [done|].
  exact (for_x_site_rounded s b1 b2 (x :: l) angles Hall).
Qed.

(** C5: when the call returns, the list its loops built holds nothing but
    angles rounded to three decimals, and the value returned is the mean
    of that list, rounded to three decimals. *)
Theorem tilting_angles_rounded_mean struct verbose s w v w' :
  heap w !! struct = Some s →
  get_tilting_angles lib b_cation x_anion distance_between_b_cations
      distance_between_b_x algorithm struct verbose w = (Returned v, w') →
  let b_sites := sites_of_species s b_cation in
  ∃ angles w1,
    for_b_site_1 lib b_cation x_anion distance_between_b_cations
        distance_between_b_x algorithm (length b_sites) s 0 b_sites [] w
        = (Returned angles, w1) ∧
    Forall (rounded_angle lib s) angles ∧
    v = round lib (np_mean lib angles) 3.
Proof.
  intros Hs Hrun b_sites.
  unfold get_tilting_angles in Hrun.
  unfold mbind at 1, M_bind at 1, load in Hrun. rewrite Hs in Hrun.
  fold b_sites in Hrun. unfold mbind at 1, M_bind at 1 in Hrun.
  pose proof (for_b_site_1_triple s (λ a _, Forall (rounded s) a) (λ _ _, True)
    (pair_body_rounded s) (λ _ _ _ _, I) (length b_sites) 0 b_sites [] w
    (Forall_nil_2 _)) as Hloop.
  destruct (outer (length b_sites) s 0 b_sites [] w) as [[angles|e] w1]; [|done].
  exists angles, w1. split_and!; [done..|].
  unfold mbind, M_bind in Hrun.
  destruct verbose; simpl in Hrun; by injection Hrun as <- _.
Qed.

(** *** C4: no angle at all *)

(** C4, as the code has it: when the loops end with an empty list the call
    does not raise and has no value set aside for the case: it returns
    what rounding the mean of the empty list gives, on the same path as
    for any other list. *)
Theorem empty_angle_list_returns_rounded_mean struct verbose s w w1 :
  heap w !! struct = Some s →
  (let b_sites := sites_of_species s b_cation in
   for_b_site_1 lib b_cation x_anion distance_between_b_cations
       distance_between_b_x algorithm (length b_sites) s 0 b_sites [] w
       = (Returned [], w1)) →
  get_tilting_angles lib b_cation x_anion distance_between_b_cations
      distance_between_b_x algorithm struct verbose w =
    (Returned (round lib (np_mean lib []) 3),
     if verbose then logs [PrintFloats "Tilting angles: " []] [] w1 else w1).
Proof.
  intros Hs Hloop. simpl in Hloop.
  unfold get_tilting_angles.
  unfold mbind at 1, M_bind at 1, load. rewrite Hs.
  unfold mbind at 1, M_bind at 1. rewrite Hloop.
  by destruct verbose.
Qed.

(** *** C2: a pair without a common anion *)

Lemma common_x_anions_disjoint n1 n2 :
  (list_to_set n1 ∩ list_to_set n2 : gset nat) = ∅ → common_x_anions n1 n2 = [].
Proof. intros Hdisj. unfold common_x_anions. by rewrite Hdisj, elements_empty. Qed.

Lemma for_b_site_2_app s b1 pre rest angles w angles1 w1 :
  inner s b1 pre angles w = (Returned (Exhausted, angles1), w1) →
  inner s b1 (pre ++ rest) angles w = inner s b1 rest angles1 w1.
Proof.
  revert angles w. induction pre as [|b pre IH]; intros angles w Hpre.
  - by injection Hpre as <- <-.
  - rewrite <- app_comm_cons, for_b_site_2_cons.
    rewrite for_b_site_2_cons in Hpre.
    destruct (body s b1 b angles w) as [[[a|a]|e] w2]; try done.
    by apply IH.
Qed.

(** C2: the inner loop for [b1] has gone through the candidates [pre]
    without leaving, and comes to a [b2] within the cutoff whose
    coordination list and that of [b1] both passed [len == 6] and have
    nothing in common.  Then the loop ends there, normally, having printed
    the diagnostic; whatever candidates [rest] follow are not looked at;
    and the outer loop goes on with its next position in the pool. *)
Theorem no_common_anion_breaks s b1 b2 pre rest angles w angles1 w1 n1 n2 :
  for_b_site_2 lib b_cation x_anion distance_between_b_cations
      distance_between_b_x algorithm s b1 pre angles w
      = (Returned (Exhausted, angles1), w1) →
  (get_distance lib s b1 b2 <? distance_between_b_cations)%float = true →
  x_neighbors_of_pair lib x_anion distance_between_b_x algorithm s b1 b2 w
    = (Returned (n1, n2), w) →
  length n1 = 6 →
  length n2 = 6 →
  (list_to_set n1 ∩ list_to_set n2 : gset nat) = ∅ →
  let w2 := logs [PrintStr (no_common_message b_cation x_anion)] [(b1, b2)] w1 in
  for_b_site_2 lib b_cation x_anion distance_between_b_cations
      distance_between_b_x algorithm s b1 (pre ++ b2 :: rest) angles w
      = (Returned (Broke, angles1), w2) ∧
  ∀ fuel i pool,
    pool !! i = Some b1 →
    list_remove b1 pool = Some (pre ++ b2 :: rest) →
    for_b_site_1 lib b_cation x_anion distance_between_b_cations
        distance_between_b_x algorithm (S fuel) s i pool angles w =
      for_b_site_1 lib b_cation x_anion distance_between_b_cations
          distance_between_b_x algorithm fuel s (S i) (pre ++ b2 :: rest) angles1 w2.
Proof.
  intros Hpre Hd Hn H1 H2 Hdisj w2.
  assert (inner s b1 (pre ++ b2 :: rest) angles w = (Returned (Broke, angles1), w2))
    as Hinner.
  { rewrite (for_b_site_2_app _ _ _ _ _ _ _ _ Hpre), for_b_site_2_cons, pair_body_eq.
    simpl. rewrite Hd.
    rewrite (x_neighbors_of_pair_world s b1 b2 w w1), Hn. simpl.
    rewrite !decide_True by done.
    rewrite (common_x_anions_disjoint _ _ Hdisj).
    unfold w2. by rewrite logs_logs. }
  split; [done|].
  intros fuel i pool Hi Hrm. simpl. rewrite Hi, Hrm.
  unfold mbind, M_bind. by rewrite Hinner.
Qed.

(** *** C3: six-fold coordination *)

Lemma six_fold_names_count s e q : sixfold s q → names s e q.
Proof. intros Hq n1 n2 w0 Hd Hn Hbad. destruct (Hq n1 n2 w0 Hd Hn). lia. Qed.

Lemma pair_body_verdict s b1 b2 angles w :
  match body s b1 b2 angles w with
  | (Returned _, w') =>
      sixfold s (b1, b2) ∧ distance_calls w' = distance_calls w ++ [(b1, b2)]
  | (Raised e, w') =>
      names s e (b1, b2) ∧ distance_calls w' = distance_calls w ++ [(b1, b2)]
  end.
Proof.
  rewrite pair_body_eq. simpl.
  destruct (_ <? _)%float eqn:Hd.
  2: { split; [|done]. intros n1 n2 w0 Hd'. simpl in Hd'. congruence. }
  destruct (neighbors_of s b1 b2 w).1 as [[n1 n2]|e] eqn:Hn.
  2: { split; [|done]. intros n1 n2 w0 _ Hn0. simpl in Hn0.
       rewrite (x_neighbors_of_pair_world s b1 b2 w w0), Hn in Hn0. done. }
  assert (∀ m1 m2 w0, neighbors_of s b1 b2 w0 = (Returned (m1, m2), w0) →
                      m1 = n1 ∧ m2 = n2) as Hsame.
  { intros m1 m2 w0 Hn0.
    rewrite (x_neighbors_of_pair_world s b1 b2 w w0), Hn in Hn0.
    by injection Hn0 as <- <-. }
  destruct (decide (length n1 = 6)) as [H1|H1].
  2: { split; [|done]. intros m1 m2 w0 _ Hn0 _. simpl in Hn0.
       destruct (Hsame _ _ _ Hn0) as [-> ->]. by rewrite decide_False. }
  destruct (decide (length n2 = 6)) as [H2|H2].
  2: { split; [|done]. intros m1 m2 w0 _ Hn0 _. simpl in Hn0.
       destruct (Hsame _ _ _ Hn0) as [-> ->]. by rewrite decide_True. }
  assert (sixfold s (b1, b2)) as Hsix.
  { intros m1 m2 w0 _ Hn0. simpl in Hn0. by destruct (Hsame _ _ _ Hn0) as [-> ->]. }
  destruct (common_x_anions n1 n2); (split; [done|]); simpl; [|done].
  by rewrite app_nil_r.
Qed.

Lemma pair_body_six_fold s c0 b1 b2 angles :
  triple (all_sixfold s c0) (body s b1 b2 angles)
    (λ _, all_sixfold s c0) (all_names s c0).
Proof.
  intros w (new & Hc & Hnew).
  pose proof (pair_body_verdict s b1 b2 angles w) as Hv.
  destruct (body s b1 b2 angles w) as [[r|e] w']; destruct Hv as [Hq Hc'];
    exists (new ++ [(b1, b2)]); rewrite Hc', Hc, app_assoc; (split; [done|]);
    apply Forall_app; (split; [|by apply Forall_singleton]).
  - done.
  - eapply Forall_impl; [done|]. intros q. apply six_fold_names_count.
Qed.

Lemma for_b_site_1_six_fold s c0 fuel i pool angles :
  triple (all_sixfold s c0) (outer fuel s i pool angles)
    (λ _, all_sixfold s c0) (all_names s c0).
Proof.
  apply (for_b_site_1_triple s (λ _, all_sixfold s c0)).
  - intros b1 b2 a.
    eapply triple_weaken; [apply pair_body_six_fold | done | by intros [?|?] | done].
  - intros a w msg (new & Hc & Hall). exists new. split; [done|].
    eapply Forall_impl; [done|]. intros q. apply six_fold_names_count.
Qed.

(** C3: a pair that the call processed (it asked for its distance) is
    within the cutoff, its two coordination lists are resolved, and one of
    them has not six entries.  Then the call raised the assertion error
    whose message has the length of the first such list in it. *)
Theorem wrong_coordination_aborts struct verbose s w r w' b1 b2 n1 n2 :
  heap w !! struct = Some s →
  get_tilting_angles lib b_cation x_anion distance_between_b_cations
      distance_between_b_x algorithm struct verbose w = (r, w') →
  (b1, b2) ∈ drop (length (distance_calls w)) (distance_calls w') →
  (get_distance lib s b1 b2 <? distance_between_b_cations)%float = true →
  x_neighbors_of_pair lib x_anion distance_between_b_x algorithm s b1 b2 w
    = (Returned (n1, n2), w) →
  length n1 ≠ 6 ∨ length n2 ≠ 6 →
  r = Raised (AssertionError
        (coordination_message b_cation x_anion
           (if decide (length n1 = 6) then length n2 else length n1))).
Proof.
  intros Hs Hrun Hin Hd Hn Hbad.
  set (b_sites := sites_of_species s b_cation).
  unfold get_tilting_angles in Hrun.
  unfold mbind at 1, M_bind at 1, load in Hrun. rewrite Hs in Hrun.
  fold b_sites in Hrun. unfold mbind at 1, M_bind at 1 in Hrun.
  assert (all_sixfold s (distance_calls w) w) as Hinit.
  { exists []. by rewrite app_nil_r. }
  pose proof (for_b_site_1_six_fold s (distance_calls w) (length b_sites) 0
    b_sites [] w Hinit) as Hloop.
  destruct (outer (length b_sites) s 0 b_sites [] w) as [[angles|e] w1].
  - exfalso. destruct Hloop as (new & Hc & Hall).
    assert (distance_calls w' = distance_calls w1) as Hw'.
    { unfold mbind, M_bind in Hrun.
      destruct verbose; simpl in Hrun; injection Hrun as _ <-; [simpl|done].
      by rewrite app_nil_r. }
    rewrite Hw', Hc, drop_app_length in Hin.
    rewrite Forall_forall in Hall.
    destruct (Hall _ Hin n1 n2 w Hd Hn). lia.
  - injection Hrun as <- <-. destruct Hloop as (new & Hc & Hall).
    rewrite Hc, drop_app_length in Hin.
    rewrite Forall_forall in Hall.
    by rewrite (Hall _ Hin n1 n2 w Hd Hn Hbad).
Qed.

(** *** C1: which pairs the two loops visit *)

Lemma evens_lookup l b : b ∈ evens l → ∃ k, l !! (2 * k) = Some b.
Proof.
  remember (length l) as n eqn:Hn. assert (length l ≤ n) as Hle by lia. clear Hn.
  revert l Hle b. induction n as [|n IH]; intros [|a [|c l']] Hle b Hb; simpl in *;
    try lia; try by apply elem_of_nil in Hb.
  - apply list_elem_of_singleton in Hb as ->. by exists 0.
  - apply elem_of_cons in Hb as [->|Hb]; [by exists 0|].
    destruct (IH l' ltac:(lia) b Hb) as [k Hk]. exists (S k).
    by replace (S k + (S k + 0)) with (S (S (k + (k + 0)))) by lia.
Qed.

Lemma evens_subseteq l b : b ∈ evens l → b ∈ l.
Proof. intros [k Hk]%evens_lookup. by eapply list_elem_of_lookup_2. Qed.

Lemma evens_odd_position l k b :
  NoDup l → l !! (2 * k + 1) = Some b → b ∉ evens l.
Proof.
  intros Hnd Hk [k' Hk']%evens_lookup.
  pose proof (NoDup_lookup _ _ _ _ Hnd Hk Hk'). lia.
Qed.

Lemma list_remove_middle pre b post :
  b ∉ pre → list_remove b (pre ++ b :: post) = Some (pre ++ post).
Proof.
  induction pre as [|a pre IH]; intros Hb; simpl.
  - by rewrite decide_True.
  - apply not_elem_of_cons in Hb as [Hne Hb].
    rewrite decide_False by done. by rewrite IH.
Qed.

Lemma NoDup_sites_of_species s sp : NoDup (sites_of_species s sp).
Proof.
  unfold sites_of_species, enumerate.
  eapply sublist_NoDup; [|apply fmap_sublist, sublist_filter].
  rewrite fmap_imap.
  rewrite (imap_ext _ (λ j _, id j)) by done.
  rewrite imap_seq_0, list_fmap_id. apply NoDup_seq.
Qed.

Lemma pair_body_calls s b1 b2 angles w :
  distance_calls (body s b1 b2 angles w).2 = distance_calls w ++ [(b1, b2)].
Proof.
  pose proof (pair_body_verdict s b1 b2 angles w) as Hv.
  by destruct (body s b1 b2 angles w) as [[r|e] w']; destruct Hv.
Qed.

(** The inner loop for [b1] asks for [(b1, b2)], for the [b2] of a prefix
    of its pool, in order. *)
Lemma for_b_site_2_calls s b1 pool angles w :
  ∃ cands, cands `prefix_of` pool ∧
    distance_calls (inner s b1 pool angles w).2
      = distance_calls w ++ ((b1 ,.) <$> cands).
Proof.
  revert angles w. induction pool as [|b2 rest IH]; intros angles w.
  - exists []. simpl. by rewrite app_nil_r.
  - rewrite for_b_site_2_cons.
    pose proof (pair_body_calls s b1 b2 angles w) as Hc.
    destruct (body s b1 b2 angles w) as [[[a|a]|e] w1]; simpl in Hc.
    + destruct (IH a w1) as (cands & Hpre & Hcalls).
      exists (b2 :: cands). split; [by apply prefix_cons|].
      rewrite Hcalls, Hc, <- app_assoc. done.
    + exists [b2]. split; [apply prefix_cons, prefix_nil | done].
    + exists [b2]. split; [apply prefix_cons, prefix_nil | done].
Qed.

Lemma visits_once_first b1 cands rest :
  NoDup cands → b1 ∉ cands → visits_once rest →
  (∀ q, q ∈ rest → q.1 ≠ b1 ∧ q.2 ≠ b1) →
  visits_once (((b1 ,.) <$> cands) ++ rest).
Proof.
  intros Hnd Hb1 [Hrest Hsym] Hfree. split.
  - apply NoDup_app. split_and!; [|  |done].
    + apply NoDup_fmap_2; [|done]. by intros x y [= ->].
    + intros q (c & -> & Hc)%list_elem_of_fmap Hq. by destruct (Hfree _ Hq).
  - intros q [(c & -> & Hc)%list_elem_of_fmap|Hq]%elem_of_app; simpl.
    + split; [by intros ->|].
      intros [(c' & [= -> _] & _)%list_elem_of_fmap|Hq]%elem_of_app; [done|].
      by destruct (Hfree _ Hq).
    + destruct (Hsym q Hq) as [Hne Hswap]. split; [done|].
      intros [(c & [= Hq2 _] & _)%list_elem_of_fmap|Hq']%elem_of_app; [|done].
      by destruct (Hfree _ Hq).
Qed.

Lemma for_b_site_1_past_end fuel s i pool angles w :
  length pool ≤ i → outer fuel s i pool angles w = (Returned angles, w).
Proof. intros Hi. destruct fuel; simpl; by rewrite lookup_ge_None_2. Qed.

(** The outer loop at position [length pre] of the pool [pre ++ post]: every
    call is for a first site at an even position of [post] and a second
    site of the pool; no pair comes twice, in either order. *)
Lemma for_b_site_1_calls fuel s pre post angles w :
  NoDup (pre ++ post) →
  ∃ new,
    distance_calls (outer fuel s (length pre) (pre ++ post) angles w).2
      = distance_calls w ++ new ∧
    visits_once new ∧
    Forall (λ q, q.1 ∈ evens post ∧ q.2 ∈ pre ++ post) new.
Proof.
  assert (visits_once []) as Hnil.
  { split; [constructor | by intros q ?%elem_of_nil]. }
  revert pre post angles w.
  induction fuel as [|fuel IH]; intros pre post angles w Hnd.
  { exists []. simpl. destruct (_ !! _); simpl; by rewrite app_nil_r. }
  destruct post as [|b1 post'].
  { exists []. rewrite for_b_site_1_past_end by (rewrite app_nil_r; lia).
    simpl. by rewrite app_nil_r. }
  pose proof Hnd as Hnd'. apply NoDup_app in Hnd' as (Hpre & Hdisj & Hpost).
  apply NoDup_cons in Hpost as [Hb1 Hpost'].
  assert (b1 ∉ pre) as Hb1pre by (intros Hin; apply (Hdisj _ Hin); by left).
  assert (b1 ∉ pre ++ post') as Hb1pool by (rewrite elem_of_app; tauto).
  assert (NoDup (pre ++ post')) as Hndpool.
  { apply NoDup_app. split_and!; [done| |done].
    intros x Hx Hx'. apply (Hdisj _ Hx). by right. }
  simpl. rewrite list_lookup_middle by done.
  rewrite (list_remove_middle _ _ _ Hb1pre), run_bind.
  destruct (for_b_site_2_calls s b1 (pre ++ post') angles w)
    as (cands & Hprefix & Hinner).
  assert (∀ c, c ∈ cands → c ∈ pre ++ post') as Hcands.
  { intros c Hc. destruct Hprefix as [k Hk]. rewrite Hk. apply elem_of_app. by left. }
  assert (NoDup cands) as Hndc.
  { eapply sublist_NoDup; [done|]. destruct Hprefix as [k Hk]. rewrite Hk.
    by apply sublist_inserts_r. }
  assert (b1 ∉ cands) as Hb1c by (intros Hin; by apply Hb1pool, Hcands).
  assert (Forall (λ q, q.1 ∈ evens (b1 :: post') ∧ q.2 ∈ pre ++ b1 :: post')
            ((b1 ,.) <$> cands)) as Hfirst.
  { apply Forall_forall. intros q (c & -> & Hc)%list_elem_of_fmap. simpl. split.
    - destruct post'; by left.
    - apply Hcands in Hc. rewrite !elem_of_app in *. rewrite elem_of_cons. tauto. }
  destruct (inner s b1 (pre ++ post') angles w) as [[[exit a]|e] w1]; simpl in Hinner.
  2: { exists ((b1 ,.) <$> cands). split_and!; [done| |done].
       rewrite <- (app_nil_r (_ <$> _)). apply visits_once_first; try done.
       by intros q ?%elem_of_nil. }
  destruct post' as [|x post''].
  { exists ((b1 ,.) <$> cands).
    rewrite for_b_site_1_past_end by (rewrite app_nil_r; lia).
    split_and!; [done| |done].
    rewrite <- (app_nil_r (_ <$> _)). apply visits_once_first; try done.
    by intros q ?%elem_of_nil. }
  replace (S (length pre)) with (length (pre ++ [x])) by (rewrite length_app; simpl; lia).
  replace (pre ++ x :: post'') with ((pre ++ [x]) ++ post'') in *
    by (by rewrite <- app_assoc).
  destruct (IH (pre ++ [x]) post'' a w1 Hndpool) as (new & Hcalls & Honce & Hall).
  rewrite Forall_forall in Hall.
  assert (∀ q, q ∈ new → q.1 ≠ b1 ∧ q.2 ≠ b1) as Hfree.
  { intros q Hq. destruct (Hall q Hq) as [H1 H2]. split; intros Heq; apply Hb1pool.
    - rewrite <- Heq. apply elem_of_app. right. by apply evens_subseteq.
    - by rewrite <- Heq. }
  exists (((b1 ,.) <$> cands) ++ new). split_and!.
  - by rewrite Hcalls, Hinner, <- app_assoc.
  - by apply visits_once_first.
  - apply Forall_app. split.
    + done.
    + apply Forall_forall. intros q Hq. destruct (Hall q Hq) as [H1 H2]. split.
      * simpl. by right.
      * rewrite !elem_of_app, !elem_of_cons in *.
        rewrite elem_of_nil in H2. tauto.
Qed.

(** What holds of C1 on every structure: the pairs a call visits are pairs
    of two different B sites, none twice in either order; and the first
    site of a visited pair stands at an even position of the list of B
    sites, so that two B sites at odd positions are never paired. *)
Lemma get_tilting_angles_calls struct verbose s w :
  heap w !! struct = Some s →
  let b_sites := sites_of_species s b_cation in
  ∃ new,
    distance_calls (tilting struct verbose w).2 = distance_calls w ++ new ∧
    visits_once new ∧
    Forall (λ q, q.1 ∈ evens b_sites ∧ q.2 ∈ b_sites) new ∧
    ∀ i j bi bj,
      b_sites !! (2 * i + 1) = Some bi → b_sites !! (2 * j + 1) = Some bj →
      (bi, bj) ∉ new.
Proof.
  intros Hs b_sites.
  destruct (for_b_site_1_calls (length b_sites) s [] b_sites [] w
              (NoDup_sites_of_species s b_cation)) as (new & Hcalls & Honce & Hall).
  exists new. split_and!; [|done..|].
  - unfold get_tilting_angles. rewrite run_bind. unfold load. rewrite Hs.
    fold b_sites. rewrite run_bind. simpl in Hcalls.
    destruct (outer (length b_sites) s 0 b_sites [] w) as [[angles|e] w1]; [|done].
    simpl in Hcalls. rewrite run_bind.
    destruct verbose; simpl; by rewrite ?app_nil_r.
  - intros i j bi bj Hi Hj Hin. rewrite Forall_forall in Hall.
    destruct (Hall _ Hin) as [Hev _]. simpl in Hev.
    exact (evens_odd_position b_sites i bi (NoDup_sites_of_species s b_cation) Hi Hev).
Qed.

(** *** Beyond the claims: the pairs visited, on every structure *)

(** On every structure, the pairs whose distance a call asks for are pairs
    of two different B sites, and no pair is asked for twice, in either
    order. *)
Theorem visited_pairs_once struct verbose s w :
  heap w !! struct = Some s →
  let w' := (get_tilting_angles lib b_cation x_anion distance_between_b_cations
               distance_between_b_x algorithm struct verbose w).2 in
  let new := drop (length (distance_calls w)) (distance_calls w') in
  let b_sites := sites_of_species s b_cation in
  NoDup new ∧
  ∀ b1 b2, (b1, b2) ∈ new →
    b1 ≠ b2 ∧ ((b2, b1) ∉ new) ∧ b1 ∈ b_sites ∧ b2 ∈ b_sites.
Proof.
  intros Hs w' new b_sites.
  destruct (get_tilting_angles_calls struct verbose s w Hs)
    as (new' & Hcalls & [Hnd Hsym] & Hall & _).
  assert (new = new') as -> by (unfold new, w'; by rewrite Hcalls, drop_app_length).
  split; [done|]. intros b1 b2 Hin.
  destruct (Hsym _ Hin) as [Hne Hswap]. rewrite Forall_forall in Hall.
  destruct (Hall _ Hin) as [H1 H2]. split_and!; [done..| |done].
  by apply evens_subseteq.
Qed.

(** Two B sites that both stand at odd positions (second, fourth, ...) of
    the list of B sites are never paired, however near they are: the outer
    loop only ever takes the sites at even positions. *)
Theorem odd_positions_never_paired struct verbose s w i j bi bj :
  heap w !! struct = Some s →
  sites_of_species s b_cation !! (2 * i + 1) = Some bi →
  sites_of_species s b_cation !! (2 * j + 1) = Some bj →
  let w' := (get_tilting_angles lib b_cation x_anion distance_between_b_cations
               distance_between_b_x algorithm struct verbose w).2 in
  (bi, bj) ∉ drop (length (distance_calls w)) (distance_calls w').
Proof.
  intros Hs Hi Hj w'.
  destruct (get_tilting_angles_calls struct verbose s w Hs)
    as (new & Hcalls & _ & _ & Hodd).
  unfold w'. rewrite Hcalls, drop_app_length. by eapply Hodd.
Qed.

(** *** Beyond the claims: the value returned on a well-bridged structure *)

Lemma for_x_site_app s b1 b2 common angles :
  for_x_site lib s b1 b2 common angles
    = angles ++ for_x_site lib s b1 b2 common [].
Proof.
  revert angles. induction common as [|x rest IH]; intros angles; simpl.
  - by rewrite app_nil_r.
  - rewrite IH, (IH [_]), app_assoc. done.
Qed.

Lemma x_neighbors_of_pair_fst s b1 b2 w w0 :
  (neighbors_of s b1 b2 w).1 = (neighbors_of s b1 b2 w0).1.
Proof. by rewrite (x_neighbors_of_pair_world s b1 b2 w0 w). Qed.

Lemma bridge_angles_pair s w0 b1 b2 :
  angles_of s w0 (b1, b2) =
    if (get_distance lib s b1 b2 <? distance_between_b_cations)%float then
      match (neighbors_of s b1 b2 w0).1 with
      | Returned (n1, n2) => for_x_site lib s b1 b2 (common_x_anions n1 n2) []
      | Raised _ => []
      end
    else [].
Proof. done. Qed.

Lemma for_b_site_2_bridged s w0 b1 pool angles w :
  Forall (is_bridged s w0) ((b1 ,.) <$> pool) →
  inner s b1 pool angles w =
    (Returned (Exhausted, angles ++ concat (angles_of s w0 <$> ((b1 ,.) <$> pool))),
     logs [] ((b1 ,.) <$> pool) w).
Proof.
  revert angles w. induction pool as [|b2 rest IH]; intros angles w Hall.
  - simpl. by rewrite app_nil_r, logs_nil.
  - rewrite fmap_cons in Hall. apply Forall_cons in Hall as [Hq Hall].
    rewrite for_b_site_2_cons, pair_body_eq. cbv zeta.
    rewrite (x_neighbors_of_pair_fst s b1 b2 w w0).
    rewrite !fmap_cons.
    change (concat (angles_of s w0 (b1, b2) :: ?l))
      with (angles_of s w0 (b1, b2) ++ concat l).
    rewrite bridge_angles_pair.
    unfold bridged in Hq. simpl in Hq.
    destruct (get_distance lib s b1 b2 <? distance_between_b_cations)%float.
    + specialize (Hq eq_refl).
      destruct (neighbors_of s b1 b2 w0).1 as [[n1 n2]|e]; [|done].
      destruct Hq as (H1 & H2 & Hc). rewrite !decide_True by done.
      destruct (common_x_anions n1 n2) as [|x l] eqn:Hcommon; [done|].
      rewrite (IH _ _ Hall), logs_logs.
      rewrite (for_x_site_app s b1 b2 (x :: l) angles).
      by rewrite <- !app_assoc.
    + rewrite (IH _ _ Hall), logs_logs. done.
Qed.

Lemma for_b_site_1_bridged fuel s w0 pre post angles w :
  NoDup (pre ++ post) →
  length post ≤ fuel →
  Forall (is_bridged s w0) (enumerated_pairs pre post) →
  outer fuel s (length pre) (pre ++ post) angles w =
    (Returned (angles ++ concat (angles_of s w0 <$> enumerated_pairs pre post)),
     logs [] (enumerated_pairs pre post) w).
Proof.
  revert pre post angles w.
  induction fuel as [|fuel IH]; intros pre post angles w Hnd Hfuel Hall.
  { destruct post; [|simpl in Hfuel; lia].
    rewrite for_b_site_1_past_end by (rewrite app_nil_r; lia).
    simpl. by rewrite app_nil_r, logs_nil. }
  destruct post as [|b1 post'].
  { rewrite for_b_site_1_past_end by (rewrite app_nil_r; lia).
    simpl. by rewrite app_nil_r, logs_nil. }
  pose proof Hnd as Hnd'. apply NoDup_app in Hnd' as (Hpre & Hdisj & Hpost).
  apply NoDup_cons in Hpost as [Hb1 Hpost'].
  assert (b1 ∉ pre) as Hb1pre by (intros Hin; apply (Hdisj _ Hin); by left).
  assert (NoDup (pre ++ post')) as Hndpool.
  { apply NoDup_app. split_and!; [done| |done].
    intros x Hx Hx'. apply (Hdisj _ Hx). by right. }
  simpl in Hall. apply Forall_app in Hall as [Hfirst Hrest].
  simpl. rewrite list_lookup_middle by done.
  rewrite (list_remove_middle _ _ _ Hb1pre), run_bind.
  rewrite (for_b_site_2_bridged s w0 b1 (pre ++ post') angles w Hfirst).
  destruct post' as [|x post''].
  { rewrite for_b_site_1_past_end by (rewrite app_nil_r; lia).
    by rewrite !app_nil_r. }
  replace (S (length pre)) with (length (pre ++ [x])) by (rewrite length_app; simpl; lia).
  replace (pre ++ x :: post'') with ((pre ++ [x]) ++ post'') in *
    by (by rewrite <- app_assoc).
  rewrite (IH (pre ++ [x]) post'' _ _ Hndpool ltac:(simpl in Hfuel; lia) Hrest).
  by rewrite logs_logs, (fmap_app (angles_of s w0)), concat_app, app_assoc.
Qed.


(** With no B site, or one, there is no pair: the call asks for no distance
    and returns the rounded mean of the empty list. *)
Theorem fewer_than_two_b_sites struct verbose s w :
  heap w !! struct = Some s →
  length (sites_of_species s b_cation) ≤ 1 →
  get_tilting_angles lib b_cation x_anion distance_between_b_cations
      distance_between_b_x algorithm struct verbose w =
    (Returned (round lib (np_mean lib []) 3),
     logs (if verbose then [PrintFloats "Tilting angles: " []] else []) [] w).
Proof.
  intros Hs Hlen.
  unfold get_tilting_angles. rewrite run_bind. unfold load. rewrite Hs.
  rewrite run_bind.
  assert (enumerated_pairs [] (sites_of_species s b_cation) = []) as Hnone.
  { by destruct (sites_of_species s b_cation) as [|b [|c l]]; simpl in *; [..|lia]. }
  pose proof (for_b_site_1_bridged (length (sites_of_species s b_cation)) s w []
                _ [] w (NoDup_sites_of_species s b_cation) (le_n _)) as Hloop.
  rewrite Hnone in Hloop. specialize (Hloop (Forall_nil_2 _)).
  change (length []) with 0 in Hloop. rewrite app_nil_l in Hloop. rewrite Hloop.
  simpl. rewrite run_bind.
  destruct verbose; simpl; [by rewrite logs_logs|done].
Qed.

(** With at most three B sites, on a well-bridged structure, every two
    different B sites are paired, in one order: the sites the outer loop
    skips start with the second of four. *)
Theorem up_to_three_b_sites_all_paired struct verbose s w a b :
  heap w !! struct = Some s →
  let b_sites := sites_of_species s b_cation in
  Forall (bridged lib x_anion distance_between_b_cations distance_between_b_x
            algorithm s w) (enumerated_pairs [] b_sites) →
  length b_sites ≤ 3 →
  a ∈ b_sites → b ∈ b_sites → a ≠ b →
  let w' := (get_tilting_angles lib b_cation x_anion distance_between_b_cations
               distance_between_b_x algorithm struct verbose w).2 in
  let new := drop (length (distance_calls w)) (distance_calls w') in
  (a, b) ∈ new ∨ (b, a) ∈ new.
Proof.
  intros Hs b_sites Hall Hlen Ha Hb Hne w' new. subst b_sites.
  assert (new = enumerated_pairs [] (sites_of_species s b_cation)) as ->.
  { unfold new, w', get_tilting_angles. rewrite run_bind. unfold load. rewrite Hs.
    rewrite run_bind.
    pose proof (for_b_site_1_bridged (length (sites_of_species s b_cation)) s w []
                  _ [] w (NoDup_sites_of_species s b_cation) (le_n _) Hall) as Hloop.
    change (length []) with 0 in Hloop. rewrite app_nil_l in Hloop.
    rewrite Hloop, run_bind.
    destruct verbose; simpl; by rewrite ?app_nil_r, drop_app_length. }
  clear Hall.
  destruct (sites_of_species s b_cation) as [|x [|y [|z [|? ?]]]]; simpl in *;
    [..|lia]; rewrite ?elem_of_cons, ?elem_of_nil in *;
    repeat match goal with
           | H : _ ∨ _ |- _ => destruct H as [->|H]
           | H : False |- _ => destruct H
           end; try done; auto 10.
Qed.

(** *** Beyond the claims: what the engine raises *)

Lemma list_remove_Forall (P : nat → Prop) x l l' :
  list_remove x l = Some l' → Forall P l → Forall P l'.
Proof.
  revert l'. induction l as [|y l IH]; intros l'; simpl; [done|].
  intros Hrm [Hy Hl]%Forall_cons. destruct (decide (x = y)); [by injection Hrm as <-|].
  destruct (list_remove x l) as [k|]; simpl in Hrm; [|done].
  injection Hrm as <-. apply Forall_cons. split; [done|]. by apply IH.
Qed.

Lemma for_b_site_2_triple_on s b1 (P : nat → Prop)
    (Inv : list float → World → Prop) E :
  (∀ b2 angles, P b2 →
     triple (Inv angles) (body s b1 b2 angles)
       (λ r w, match r with Continue a | Break a => Inv a w end) E) →
  ∀ pool angles, Forall P pool →
    triple (Inv angles) (inner s b1 pool angles) (λ r w, Inv r.2 w) E.
Proof.
  intros Hbody pool. induction pool as [|b2 rest IH]; intros angles Hpool; simpl.
  - by apply triple_ret.
  - apply Forall_cons in Hpool as [Hb2 Hrest].
    eapply triple_bind; [by apply Hbody|].
    intros [a|a]; [by apply IH | by apply triple_ret].
Qed.

(** The outer loop under an invariant, for a pool of sites that are all
    [P]: [list.remove] finds what the iterator has just yielded, so no
    ValueError comes out of it. *)
Lemma for_b_site_1_triple_on s (P : nat → Prop)
    (Inv : list float → World → Prop) E :
  (∀ b1 b2 angles, P b1 → P b2 →
     triple (Inv angles) (body s b1 b2 angles)
       (λ r w, match r with Continue a | Break a => Inv a w end) E) →
  ∀ fuel i pool angles, Forall P pool →
    triple (Inv angles) (outer fuel s i pool angles) Inv E.
Proof.
  intros Hbody fuel.
  induction fuel as [|fuel IH]; intros i pool angles Hpool; simpl.
  - destruct (pool !! i); by apply triple_ret.
  - destruct (pool !! i) as [b1|] eqn:Hb1; [|by apply triple_ret].
    assert (b1 ∈ pool) as Hin by by eapply list_elem_of_lookup_2.
    destruct (list_remove_elem_of _ _ Hin) as [pool' Hrm]. rewrite Hrm.
    pose proof (list_remove_Forall _ _ _ _ Hrm Hpool) as Hpool'.
    rewrite Forall_forall in Hpool.
    eapply triple_bind.
    + apply (for_b_site_2_triple_on s b1 P); [|done].
      intros b2 a Hb2. apply Hbody; [by apply Hpool | done].
    + intros [? a]. by apply IH.
Qed.

Lemma get_tilting_angles_triple s (P : nat → Prop)
    (Inv : list float → World → Prop) (E : exn → World → Prop)
    struct verbose w :
  heap w !! struct = Some s →
  (∀ b1 b2 angles, P b1 → P b2 →
     triple (Inv angles) (body s b1 b2 angles)
       (λ r w, match r with Continue a | Break a => Inv a w end) E) →
  Forall P (sites_of_species s b_cation) →
  Inv [] w →
  match tilting struct verbose w with
  | (Returned v, w') =>
      ∃ angles w1, Inv angles w1 ∧ v = round lib (np_mean lib angles) 3 ∧
        w' = (if verbose then logs [PrintFloats "Tilting angles: " angles] [] w1
              else w1)
  | (Raised e, w') => E e w'
  end.
Proof.
  intros Hs Hbody HP Hinit. unfold get_tilting_angles.
  rewrite run_bind. unfold load. rewrite Hs. rewrite run_bind.
  pose proof (for_b_site_1_triple_on s P Inv E Hbody
                (length (sites_of_species s b_cation)) 0 _ [] HP w Hinit) as Hloop.
  destruct (outer _ s 0 _ [] w) as [[angles|e] w1]; [|done].
  rewrite run_bind. destruct verbose; simpl; by exists angles, w1.
Qed.

(** The coordination lists of two sites of the structure are resolved, or
    the algorithm is unknown. *)
Lemma x_neighbors_of_pair_sites s b1 b2 w :
  is_Some (sites s !! b1) → is_Some (sites s !! b2) →
  (∃ n1 n2, (neighbors_of s b1 b2 w).1 = Returned (n1, n2)) ∨
  ((neighbors_of s b1 b2 w).1 = Raised (UnboundLocalError "x_neighbors_of_b_1") ∧
   algorithm ≠ "neighbors" ∧ algorithm ≠ "crystal_nn").
Proof.
  intros [x1 H1] [x2 H2]. unfold x_neighbors_of_pair.
  destruct (decide (algorithm = "neighbors")).
  - left. unfold getitem. rewrite run_bind, H1. simpl. rewrite run_bind, H2.
    by eexists _, _.
  - destruct (decide (algorithm = "crystal_nn")); [left; by eexists _, _ | by right].
Qed.

Lemma x_neighbors_of_pair_unknown s b1 b2 w :
  algorithm ≠ "neighbors" → algorithm ≠ "crystal_nn" →
  neighbors_of s b1 b2 w = (Raised (UnboundLocalError "x_neighbors_of_b_1"), w).
Proof.
  intros Hn Hc. unfold x_neighbors_of_pair.
  destruct (decide (algorithm = "neighbors")); [done|].
  by destruct (decide (algorithm = "crystal_nn")).
Qed.

(** Whatever the structure, the call raises nothing but the assertion
    error of a count that is not six and, under an [algorithm] that is
    neither of the two names, the unbound local of line 68: no IndexError,
    and no ValueError from [list.remove]. *)
Theorem engine_raises_only struct verbose s w e w' :
  heap w !! struct = Some s →
  get_tilting_angles lib b_cation x_anion distance_between_b_cations
      distance_between_b_x algorithm struct verbose w = (Raised e, w') →
  engine_error b_cation x_anion algorithm e.
Proof.
  intros Hs Hrun.
  pose proof (get_tilting_angles_triple s (λ b, is_Some (sites s !! b))
                (λ _ _, True) (λ e _, is_engine_error e) struct verbose w Hs)
    as Hcall.
  rewrite Hrun in Hcall. apply Hcall; [| |done].
  - intros b1 b2 angles Hb1 Hb2 w0 _. rewrite pair_body_eq. cbv zeta.
    destruct (_ <? _)%float; [|done].
    destruct (x_neighbors_of_pair_sites s b1 b2 w0 Hb1 Hb2)
      as [(n1 & n2 & ->)|(-> & Halg)]; [|by right].
    destruct (decide (length n1 = 6)); [|left; by eexists].
    destruct (decide (length n2 = 6)); [|left; by eexists].
    by destruct (common_x_anions n1 n2).
  - apply Forall_forall. intros b (site & Hb & _)%sites_of_species_lookup. by eexists.
Qed.

(** Under an [algorithm] that is neither ['neighbors'] nor ['crystal_nn'],
    the first pair within the cutoff ends the call: a call that has asked
    for the distance of a pair within the cutoff has raised the unbound
    local. *)
Theorem unknown_algorithm_raises struct verbose s w r w' b1 b2 :
  algorithm ≠ "neighbors" →
  algorithm ≠ "crystal_nn" →
  heap w !! struct = Some s →
  get_tilting_angles lib b_cation x_anion distance_between_b_cations
      distance_between_b_x algorithm struct verbose w = (r, w') →
  (b1, b2) ∈ drop (length (distance_calls w)) (distance_calls w') →
  (get_distance lib s b1 b2 <? distance_between_b_cations)%float = true →
  r = Raised (UnboundLocalError "x_neighbors_of_b_1").
Proof.
  intros Hn Hc Hs Hrun Hin Hd.
  set (beyond := λ q : nat * nat,
         (get_distance lib s q.1 q.2 <? distance_between_b_cations)%float = false).
  pose proof (get_tilting_angles_triple s (λ _, True)
                (λ _ w1, ∃ new, distance_calls w1 = distance_calls w ++ new ∧
                                Forall beyond new)
                (λ e _, e = UnboundLocalError "x_neighbors_of_b_1")
                struct verbose w Hs) as Hcall.
  rewrite Hrun in Hcall.
  assert (match r with
          | Returned _ => ∃ new, distance_calls w' = distance_calls w ++ new ∧
                                 Forall beyond new
          | Raised e => e = UnboundLocalError "x_neighbors_of_b_1"
          end) as Hr.
  { assert (match r with
            | Returned v =>
                ∃ angles w1,
                  (∃ new, distance_calls w1 = distance_calls w ++ new ∧
                          Forall beyond new) ∧
                  v = round lib (np_mean lib angles) 3 ∧
                  w' = (if verbose
                        then logs [PrintFloats "Tilting angles: " angles] [] w1
                        else w1)
            | Raised e => e = UnboundLocalError "x_neighbors_of_b_1"
            end) as Hr.
    { apply Hcall.
      - intros c1 c2 angles _ _ w0 (new & Hcalls & Hall).
        rewrite pair_body_eq. cbv zeta.
        destruct (get_distance lib s c1 c2 <? distance_between_b_cations)%float
          eqn:Hd12.
        + by rewrite (x_neighbors_of_pair_unknown s c1 c2 w0 Hn Hc).
        + exists (new ++ [(c1, c2)]). simpl. rewrite Hcalls, app_assoc.
          split; [done|]. apply Forall_app. split; [done|]. by apply Forall_singleton.
      - by apply Forall_true.
      - exists []. by rewrite app_nil_r. }
    destruct r as [v|e]; [|done].
    destruct Hr as (angles & w1 & (new & Hcalls & Hall) & _ & ->).
    exists new. split; [|done]. destruct verbose; simpl; [|done].
    by rewrite app_nil_r. }
  destruct r as [v|e]; [|by rewrite Hr].
  destruct Hr as (new & Hcalls & Hall).
  rewrite Hcalls, drop_app_length in Hin. rewrite Forall_forall in Hall.
  specialize (Hall _ Hin). unfold beyond in Hall. simpl in Hall. congruence.
Qed.

(** [verbose] changes nothing but the output: the call returns or raises
    the same, and when it returns it has printed, last, the one line of the
    angles whose rounded mean it returns; a call that raises prints no such
    line. *)
Theorem verbose_only_prints struct s w r w1 :
  heap w !! struct = Some s →
  get_tilting_angles lib b_cation x_anion distance_between_b_cations
      distance_between_b_x algorithm struct false w = (r, w1) →
  match r with
  | Returned v =>
      ∃ angles,
        v = round lib (np_mean lib angles) 3 ∧
        get_tilting_angles lib b_cation x_anion distance_between_b_cations
            distance_between_b_x algorithm struct true w
          = (Returned v, logs [PrintFloats "Tilting angles: " angles] [] w1)
  | Raised e =>
      get_tilting_angles lib b_cation x_anion distance_between_b_cations
          distance_between_b_x algorithm struct true w = (Raised e, w1)
  end.
Proof.
  intros Hs Hrun. unfold get_tilting_angles in *.
  rewrite run_bind in Hrun. unfold load in *. rewrite Hs in Hrun.
  rewrite run_bind in Hrun.
  destruct (outer _ s 0 _ [] w) as [[angles|e] w2] eqn:Hloop.
  - rewrite run_bind in Hrun. simpl in Hrun. injection Hrun as <- <-.
    exists angles. split; [done|].
    rewrite run_bind, Hs, run_bind, Hloop, run_bind. done.
  - injection Hrun as <- <-. by rewrite run_bind, Hs, run_bind, Hloop.
Qed.

End oct_distortions_facts.

(** ** The engine on the example structures *)

(** C1: on [square] the four Pb are sites 0 to 3, and sites 1 and 3 are
    within the cutoff of each other, yet the call never asks for their
    distance, in either order: the outer loop takes site 0, then site 2, and
    stops.  Three angles are computed where the structure has four
    bridges. *)
Theorem pool_removal_skips_a_pair :
  let run := default_run true (world_with square) in
  sites_of_species square "Pb" = [0; 1; 2; 3] ∧
  (get_distance toy square 1 3 <? 6.6)%float = true ∧
  distance_calls run.2 = [(0, 1); (0, 2); (0, 3); (2, 1); (2, 3)] ∧
  stdout run.2 = [PrintFloats "Tilting angles: " [180; 180; 180]%float] ∧
  run.1 = Returned 180%float.
Proof. by vm_compute. Qed.

Lemma no_common_anion_breaks_witness :
  let w := world_with no_bridge in
  let neighbors_of := x_neighbors_of_pair toy "I" 3.25 "neighbors" in
  let inner := for_b_site_2 toy "Pb" "I" 6.6 3.25 "neighbors" in
  let outer := for_b_site_1 toy "Pb" "I" 6.6 3.25 "neighbors" in
  let w2 := logs [PrintStr "No common I between the Pb"] [(0, 1)] w in
  (get_distance toy no_bridge 0 1 <? 6.6)%float = true ∧
  neighbors_of no_bridge 0 1 w = (Returned ([3; 4; 5; 6; 7; 8], [9; 10; 11; 12; 13; 14]), w) ∧
  inner no_bridge 0 [1; 2] [] w = (Returned (Broke, []), w2) ∧
  outer 3 no_bridge 0 [0; 1; 2] [] w = outer 2 no_bridge 1 [1; 2] [] w2.
Proof.
  intros w neighbors_of inner outer w2.
  assert ((get_distance toy no_bridge 0 1 <? 6.6)%float = true) as Hd by compute_done.
  assert (neighbors_of no_bridge 0 1 w
          = (Returned ([3; 4; 5; 6; 7; 8], [9; 10; 11; 12; 13; 14]), w)) as Hn
    by compute_done.
  destruct (no_common_anion_breaks toy "Pb" "I" 6.6 3.25 "neighbors"
              no_bridge 0 1 [] [2] [] w [] w _ _ eq_refl Hd Hn eq_refl eq_refl
              ltac:(compute_done)) as [Hinner Houter].
  split_and!; [done..|].
  apply (Houter 2 0 [0; 1; 2]); reflexivity.
Defined.

Lemma wrong_coordination_aborts_witness :
  let w := world_with five_fold in
  let r := Raised (AssertionError "I find 5 I surrounding the Pb. This number should be 6!") in
  default_run false w = (r, logs [] [(0, 1)] w) ∧
  (get_distance toy five_fold 0 1 <? 6.6)%float = true ∧
  x_neighbors_of_pair toy "I" 3.8 "neighbors" five_fold 0 1 w
    = (Returned ([2; 3; 4; 5; 6], [2; 7; 8; 9; 10; 11]), w) ∧
  (default_run false w).1 = r.
Proof.
  intros w r.
  assert (default_run false w = (r, logs [] [(0, 1)] w)) as Hrun by compute_done.
  assert ((get_distance toy five_fold 0 1 <? 6.6)%float = true) as Hd by compute_done.
  assert (x_neighbors_of_pair toy "I" 3.8 "neighbors" five_fold 0 1 w
          = (Returned ([2; 3; 4; 5; 6], [2; 7; 8; 9; 10; 11]), w)) as Hn by compute_done.
  split_and!; [done..|].
  rewrite Hrun. simpl.
  apply (wrong_coordination_aborts toy "Pb" "I" 6.6 3.8 "neighbors" 0 false
           five_fold w r _ 0 1 _ _ eq_refl Hrun ltac:(compute_done) Hd Hn).
  left. simpl. lia.
Defined.

(** C4: on [no_bridge], with a B-X cutoff of 3.25, the only pair within the
    B-B cutoff has no common anion: no angle is computed, and the call
    returns a not-a-number, as any other float, without raising. *)
Lemma empty_angle_list_returns_nan :
  let w := world_with no_bridge in
  let outer := for_b_site_1 toy "Pb" "I" 6.6 3.25 "neighbors" in
  let run := get_tilting_angles toy "Pb" "I" 6.6 3.25 "neighbors" 0 false w in
  (outer 3 no_bridge 0 [0; 1; 2] [] w).1 = Returned [] ∧
  run.1 = Returned nan ∧
  PrimFloat.is_nan nan = true.
Proof. by vm_compute. Qed.

Lemma empty_angle_list_returns_rounded_mean_witness :
  let w := world_with no_bridge in
  let w1 := logs [PrintStr "No common I between the Pb"] [(0, 1); (2, 1)] w in
  heap w !! 0 = Some no_bridge ∧
  for_b_site_1 toy "Pb" "I" 6.6 3.25 "neighbors" 3 no_bridge 0 [0; 1; 2] [] w
    = (Returned [], w1) ∧
  get_tilting_angles toy "Pb" "I" 6.6 3.25 "neighbors" 0 true w
    = (Returned (toy_round (toy_np_mean []) 3),
       logs [PrintFloats "Tilting angles: " []] [] w1).
Proof.
  intros w w1.
  assert (for_b_site_1 toy "Pb" "I" 6.6 3.25 "neighbors" 3 no_bridge 0 [0; 1; 2] [] w
          = (Returned [], w1)) as Hloop by compute_done.
  split_and!; [done..|].
  exact (empty_angle_list_returns_rounded_mean toy "Pb" "I" 6.6 3.25 "neighbors"
           0 true no_bridge w w1 eq_refl Hloop).
Defined.

Lemma tilting_angles_rounded_mean_witness :
  let w := world_with two_octahedra in
  let w' := logs [PrintFloats "Tilting angles: " [180%float]] [(0, 1)] w in
  default_run true w = (Returned 180%float, w') ∧
  ∃ angles w1,
    for_b_site_1 toy "Pb" "I" 6.6 3.8 "neighbors" 2 two_octahedra 0 [0; 1] [] w
      = (Returned angles, w1) ∧
    Forall (rounded_angle toy two_octahedra) angles ∧
    180%float = toy_round (toy_np_mean angles) 3.
Proof.
  intros w w'.
  assert (default_run true w = (Returned 180%float, w')) as Hrun by compute_done.
  split; [done|].
  exact (tilting_angles_rounded_mean toy "Pb" "I" 6.6 3.8 "neighbors" 0 true
           two_octahedra w _ _ eq_refl Hrun).
Defined.

Lemma get_tilting_angles_deterministic_witness :
  heap (world_with two_octahedra) !! 0 = Some two_octahedra ∧
  heap later_world !! 0 = Some two_octahedra ∧
  ∃ r out calls,
    default_run true (world_with two_octahedra)
      = (r, logs out calls (world_with two_octahedra)) ∧
    default_run true later_world = (r, logs out calls later_world).
Proof.
  split_and!; [done..|].
  exact (get_tilting_angles_deterministic toy "Pb" "I" 6.6 3.8 "neighbors" 0 true
           two_octahedra (world_with two_octahedra) later_world eq_refl eq_refl).
Defined.

(** ** The further properties of the engine on the example structures *)

Lemma visited_pairs_once_witness :
  let w := world_with square in
  let new := drop (length (distance_calls w)) (distance_calls (default_run true w).2) in
  heap w !! 0 = Some square ∧
  NoDup new ∧
  ∀ b1 b2, (b1, b2) ∈ new →
    b1 ≠ b2 ∧ ((b2, b1) ∉ new) ∧
    b1 ∈ sites_of_species square "Pb" ∧ b2 ∈ sites_of_species square "Pb".
Proof.
  intros w new. split; [done|].
  exact (visited_pairs_once toy "Pb" "I" 6.6 3.8 "neighbors" 0 true square w eq_refl).
Defined.

Lemma odd_positions_never_paired_witness :
  let w := world_with square in
  heap w !! 0 = Some square ∧
  sites_of_species square "Pb" !! (2 * 0 + 1) = Some 1 ∧
  sites_of_species square "Pb" !! (2 * 1 + 1) = Some 3 ∧
  (1, 3) ∉ drop (length (distance_calls w)) (distance_calls (default_run true w).2).
Proof.
  intros w. split_and!; [done..|].
  exact (odd_positions_never_paired toy "Pb" "I" 6.6 3.8 "neighbors" 0 true square w
           0 1 1 3 eq_refl eq_refl eq_refl).
Defined.


Lemma fewer_than_two_b_sites_witness :
  let w := world_with molecules in
  heap w !! 0 = Some molecules ∧
  length (sites_of_species molecules "Pb") ≤ 1 ∧
  default_run false w = (Returned (toy_round (toy_np_mean []) 3), logs [] [] w).
Proof.
  intros w.
  assert (length (sites_of_species molecules "Pb") ≤ 1) as Hlen by (vm_compute; lia).
  split_and!; [done..|].
  exact (fewer_than_two_b_sites toy "Pb" "I" 6.6 3.8 "neighbors" 0 false molecules w
           eq_refl Hlen).
Defined.

Lemma up_to_three_b_sites_all_paired_witness :
  let w := world_with two_octahedra in
  let b_sites := sites_of_species two_octahedra "Pb" in
  let new := drop (length (distance_calls w)) (distance_calls (default_run false w).2) in
  heap w !! 0 = Some two_octahedra ∧
  Forall (bridged toy "I" 6.6 3.8 "neighbors" two_octahedra w)
    (enumerated_pairs [] b_sites) ∧
  length b_sites ≤ 3 ∧
  ((1, 0) ∈ new ∨ (0, 1) ∈ new).
Proof.
  intros w b_sites new.
  assert (Forall (bridged toy "I" 6.6 3.8 "neighbors" two_octahedra w)
            (enumerated_pairs [] b_sites)) as Hall.
  { assert (enumerated_pairs [] b_sites = [(0, 1)]) as -> by compute_done.
    repeat apply Forall_cons_2; try apply Forall_nil_2;
      intros Hd; vm_compute; split_and!; done. }
  assert (length b_sites ≤ 3) as Hlen by (vm_compute; lia).
  split_and!; [done..|].
  apply (up_to_three_b_sites_all_paired toy "Pb" "I" 6.6 3.8 "neighbors" 0 false
           two_octahedra w 1 0 eq_refl Hall Hlen); compute_done.
Defined.

Lemma engine_raises_only_witness :
  let w := world_with five_fold in
  let e := AssertionError "I find 5 I surrounding the Pb. This number should be 6!" in
  default_run false w = (Raised e, logs [] [(0, 1)] w) ∧
  engine_error "Pb" "I" "neighbors" e.
Proof.
  intros w e.
  assert (default_run false w = (Raised e, logs [] [(0, 1)] w)) as Hrun by compute_done.
  split; [done|].
  exact (engine_raises_only toy "Pb" "I" 6.6 3.8 "neighbors" 0 false five_fold w e _
           eq_refl Hrun).
Defined.

Lemma unknown_algorithm_raises_witness :
  let w := world_with two_octahedra in
  let run := get_tilting_angles toy "Pb" "I" 6.6 3.8 "voronoi" 0 false w in
  "voronoi" ≠ "neighbors" ∧ "voronoi" ≠ "crystal_nn" ∧
  (0, 1) ∈ drop (length (distance_calls w)) (distance_calls run.2) ∧
  (get_distance toy two_octahedra 0 1 <? 6.6)%float = true ∧
  run.1 = Raised (UnboundLocalError "x_neighbors_of_b_1").
Proof.
  intros w run.
  assert ("voronoi" ≠ "neighbors") as Hn by done.
  assert ("voronoi" ≠ "crystal_nn") as Hc by done.
  assert ((0, 1) ∈ drop (length (distance_calls w)) (distance_calls run.2)) as Hin
    by compute_done.
  assert ((get_distance toy two_octahedra 0 1 <? 6.6)%float = true) as Hd
    by compute_done.
  split_and!; [done..|].
  exact (unknown_algorithm_raises toy "Pb" "I" 6.6 3.8 "voronoi" 0 false two_octahedra
           w run.1 run.2 0 1 Hn Hc eq_refl (surjective_pairing run) Hin Hd).
Defined.

Lemma verbose_only_prints_witness :
  let w := world_with two_octahedra in
  let w1 := logs [] [(0, 1)] w in
  default_run false w = (Returned 180%float, w1) ∧
  ∃ angles,
    180%float = toy_round (toy_np_mean angles) 3 ∧
    default_run true w
      = (Returned 180%float, logs [PrintFloats "Tilting angles: " angles] [] w1).
Proof.
  intros w w1.
  assert (default_run false w = (Returned 180%float, w1)) as Hrun by compute_done.
  split; [done|].
  exact (verbose_only_prints toy "Pb" "I" 6.6 3.8 "neighbors" 0 two_octahedra w _ _
           eq_refl Hrun).
Defined.

(** ** The A-cation locator *)

Section rotations_facts.
Context (lib : Library).

Lemma for_carbon_eq s radius carbon_sites fa_molecules w :
  for_carbon lib s radius carbon_sites fa_molecules (length fa_molecules) w =
    (Returned (fa_molecules ++
       ((λ p, p.1 :: (site_index <$> get_neighbors lib s p.2 radius)) <$> carbon_sites)),
     logs ((λ p, PrintStrings (nn_species <$> get_neighbors lib s p.2 radius))
             <$> carbon_sites) [] w).
Proof.
  revert fa_molecules w.
  induction carbon_sites as [|[index carbon] rest IH]; intros fa w; simpl.
  - by rewrite app_nil_r, logs_nil.
  - unfold mbind, M_bind, print.
    rewrite lookup_app_r, Nat.sub_diag by done. simpl.
    replace (<[length fa := index :: (site_index <$> get_neighbors lib s carbon radius)]>
               (fa ++ [[index]]))
      with (fa ++ [index :: (site_index <$> get_neighbors lib s carbon radius)]).
    2: { rewrite insert_app_r_alt, Nat.sub_diag by done. done. }
    replace (S (length fa))
      with (length (fa ++ [index :: (site_index <$> get_neighbors lib s carbon radius)])).
    2: { rewrite length_app. simpl. lia. }
    rewrite IH, logs_logs, <- app_assoc. done.
Qed.

(** [len(set(lengths)) == 1]: there is a length, and only one. *)
Lemma size_list_to_set_1 (l : list nat) :
  size (list_to_set l : gset nat) = 1 ↔ l ≠ [] ∧ ∀ x y, x ∈ l → y ∈ l → x = y.
Proof.
  split.
  - intros Hsize. apply size_1_elem_of in Hsize as [z Hz]. split.
    + intros ->. simpl in Hz. set_solver.
    + intros x y Hx Hy.
      assert (x ∈ (list_to_set l : gset nat)) as Hx' by by apply elem_of_list_to_set.
      assert (y ∈ (list_to_set l : gset nat)) as Hy' by by apply elem_of_list_to_set.
      rewrite Hz in Hx', Hy'. set_solver.
  - intros [Hne Hall]. destruct l as [|z l]; [done|].
    assert ((list_to_set (z :: l) : gset nat) = {[ z ]}) as ->.
    { apply set_eq. intros x. rewrite elem_of_list_to_set, elem_of_singleton. split.
      - intros Hx. apply Hall; [done | by left].
      - intros ->. by left. }
    apply size_singleton.
Qed.

Lemma get_a_cation_sites_eq struct marker radius s w :
  heap w !! struct = Some s →
  let groups := molecule_groups lib s marker radius in
  get_a_cation_sites lib struct marker radius w =
    (if decide (size (list_to_set (length <$> groups) : gset nat) = 1)
     then Returned groups else Raised (AssertionError ""),
     logs (neighbor_prints lib s marker radius) [] w).
Proof.
  intros Hs groups. unfold get_a_cation_sites.
  unfold mbind at 1, M_bind at 1, load. rewrite Hs.
  unfold mbind at 1, M_bind at 1.
  rewrite (for_carbon_eq s radius _ [] w). simpl.
  fold (molecule_groups lib s marker radius). fold groups.
  fold (neighbor_prints lib s marker radius).
  unfold mbind, M_bind, py_assert.
  destruct (decide (size (list_to_set (length <$> groups) : gset nat) = 1)) as [H1|H1].
  - by rewrite (bool_decide_eq_true_2 _ H1).
  - by rewrite (bool_decide_eq_false_2 _ H1).
Qed.

(** C8, as the code has it: groups of different lengths raise; when there
    is at least one marker site and all groups have one length, the groups
    are returned, one per marker site in structure order, each the marker's
    index followed by the indices of its neighbours. *)
Theorem get_a_cation_sites_groups struct marker radius s w :
  heap w !! struct = Some s →
  let groups := molecule_groups lib s marker radius in
  let w' := logs (neighbor_prints lib s marker radius) [] w in
  ((∃ g1 g2, g1 ∈ groups ∧ g2 ∈ groups ∧ length g1 ≠ length g2) →
   get_a_cation_sites lib struct marker radius w = (Raised (AssertionError ""), w')) ∧
  (groups ≠ [] →
   (∀ g1 g2, g1 ∈ groups → g2 ∈ groups → length g1 = length g2) →
   get_a_cation_sites lib struct marker radius w = (Returned groups, w')).
Proof.
  intros Hs groups w'. split.
  - intros (g1 & g2 & Hg1 & Hg2 & Hne).
    rewrite (get_a_cation_sites_eq _ _ _ _ _ Hs). fold groups.
    rewrite decide_False; [done|].
    intros [_ Hall]%size_list_to_set_1. apply Hne, Hall; by apply list_elem_of_fmap_2.
  - intros Hne Hall.
    rewrite (get_a_cation_sites_eq _ _ _ _ _ Hs). fold groups.
    rewrite decide_True; [done|].
    apply size_list_to_set_1. split.
    + by destruct groups.
    + intros x y (g1 & -> & Hg1)%list_elem_of_fmap (g2 & -> & Hg2)%list_elem_of_fmap.
      by apply Hall.
Qed.

(** C10: a structure without a site of the marker species makes the locator
    raise the assertion error: no group, so no length, so not one length. *)
Theorem get_a_cation_sites_no_marker struct marker radius s w :
  heap w !! struct = Some s →
  (∀ site, site ∈ sites s → species_string site ≠ marker) →
  get_a_cation_sites lib struct marker radius w = (Raised (AssertionError ""), w).
Proof.
  intros Hs Hnone.
  assert (filter (λ p, species_string p.2 = marker) (enumerate s) = []) as Hnil.
  { destruct (filter _ _) as [|p l] eqn:Hf; [done|]. exfalso.
    assert (p ∈ filter (λ p, species_string p.2 = marker) (enumerate s)) as Hp
      by (rewrite Hf; by left).
    apply list_elem_of_filter in Hp as [Hsp Hp].
    apply elem_of_lookup_imap in Hp as (i & site & -> & Hi).
    by apply (Hnone site); [eapply list_elem_of_lookup_2|]. }
  rewrite (get_a_cation_sites_eq _ _ _ _ _ Hs).
  unfold molecule_groups, neighbor_prints. rewrite Hnil. simpl.
  by rewrite logs_nil.
Qed.

End rotations_facts.

(** ** The rigid rotator *)

Section rotator_facts.
Context (lib : Library).

(** *** Nothing but the copy is written *)

Lemma writes_only_heap {A} l (m : M A) :
  (∀ w, heap (m w).2 = heap w) → writes_only l m.
Proof.
  intros Hm h0 w Hw. specialize (Hm w).
  destruct (m w) as [[a|e] w']; simpl in Hm; intros l0 Hl0; rewrite Hm; by apply Hw.
Qed.

Lemma writes_only_ret {A} l (a : A) : writes_only l (mret a).
Proof. by apply writes_only_heap. Qed.

Lemma writes_only_raise {A} l e : writes_only l (@raise A e).
Proof. by apply writes_only_heap. Qed.

Lemma writes_only_bind {A B} l (m : M A) (k : A → M B) :
  writes_only l m → (∀ a, writes_only l (k a)) → writes_only l (m ≫= k).
Proof. intros Hm Hk h0. eapply triple_bind; [apply Hm | intros a; apply Hk]. Qed.

Lemma writes_only_load l l' : writes_only l (load l').
Proof. apply writes_only_heap. intros w. unfold load. by destruct (heap w !! l'). Qed.

Lemma writes_only_store l s : writes_only l (store l s).
Proof. intros h0 w Hw l0 Hl0. simpl. rewrite lookup_insert_ne by done. by apply Hw. Qed.

Lemma writes_only_getitem_int l s i : writes_only l (getitem_int s i).
Proof.
  apply writes_only_heap. intros w. unfold getitem_int.
  destruct (py_index _ _) as [k|]; [|done]. by destruct (sites s !! k).
Qed.

Lemma writes_only_randrange l start stop : writes_only l (randrange lib start stop).
Proof.
  apply writes_only_heap. intros w. unfold randrange.
  destruct (decide _); [|done]. by destruct (randbelow _ _ _).
Qed.

Lemma writes_only_float_of_int l z : writes_only l (float_of_int z).
Proof. apply writes_only_heap. intros w. unfold float_of_int. by destruct (decide _). Qed.

Lemma writes_only_for_index l structure idxs center total :
  writes_only l (for_index structure idxs center total).
Proof.
  revert center total. induction idxs as [|i rest IH]; intros center total; simpl.
  - apply writes_only_ret.
  - apply writes_only_bind; [apply writes_only_load|]. intros s.
    apply writes_only_bind; [apply writes_only_getitem_int|]. intros [k site].
    apply IH.
Qed.

Lemma writes_only_get_center_of_mass l structure idxs :
  writes_only l (get_center_of_mass structure idxs).
Proof.
  apply writes_only_bind; [apply writes_only_for_index|].
  intros [c t]. apply writes_only_ret.
Qed.

Lemma writes_only_rotate_sites l idxs theta axis anchor :
  writes_only l (rotate_sites lib l idxs theta axis anchor).
Proof.
  induction idxs as [|i rest IH]; simpl.
  - apply writes_only_ret.
  - apply writes_only_bind; [apply writes_only_load|]. intros s.
    apply writes_only_bind; [apply writes_only_getitem_int|]. intros [k site].
    apply writes_only_bind; [apply writes_only_store|]. intros _. apply IH.
Qed.

Lemma writes_only_perturb l distance : writes_only l (perturb lib l distance).
Proof.
  apply writes_only_bind; [apply writes_only_load|]. intros s.
  apply writes_only_bind; [|intros sites'; apply writes_only_store].
  apply writes_only_heap. intros w. unfold with_np_random.
  by destruct (perturb_sites _ _ _ _ _).
Qed.

Lemma writes_only_for_sites l fa_molecules maximum_angle rotation_axis :
  writes_only l (for_sites lib l fa_molecules maximum_angle rotation_axis).
Proof.
  induction fa_molecules as [|sites rest IH]; simpl.
  - apply writes_only_ret.
  - apply writes_only_bind; [apply writes_only_randrange|]. intros angle.
    apply writes_only_bind; [apply writes_only_get_center_of_mass|]. intros c.
    apply writes_only_bind; [apply writes_only_float_of_int|]. intros angle_f.
    apply writes_only_bind; [apply writes_only_rotate_sites|]. intros _. apply IH.
Qed.

Lemma deepcopy_eq struct s w :
  heap w !! struct = Some s →
  deepcopy struct w = alloc s w.
Proof. intros Hs. unfold deepcopy. rewrite run_bind. unfold load. by rewrite Hs. Qed.

(** C6: whether the call returns or raises, every object of the caller's
    heap, the input structure among them, is afterwards what it was; the
    structure returned is a new object, at a location that held nothing
    before the call. *)
Theorem rotate_a_cation_leaves_input struct fa_molecules maximum_angle
    rotation_axis s w r w' :
  heap w !! struct = Some s →
  rotate_a_cation lib struct fa_molecules maximum_angle rotation_axis w = (r, w') →
  heap w' !! struct = Some s ∧
  (∀ l0 s0, heap w !! l0 = Some s0 → heap w' !! l0 = Some s0) ∧
  (∀ l, r = Returned l → l ≠ struct ∧ heap w !! l = None).
Proof.
  intros Hs Hrun.
  unfold rotate_a_cation in Hrun.
  rewrite run_bind, (deepcopy_eq _ _ _ Hs) in Hrun.
  unfold alloc in Hrun. cbv beta iota zeta in Hrun.
  set (l := fresh (dom (heap w))) in Hrun.
  assert (heap w !! l = None) as Hl by apply not_elem_of_dom, is_fresh.
  match type of Hrun with (?m ?w1 = _) =>
    assert (writes_only l m) as Hm; [|pose proof (Hm (heap w) w1) as Hframe] end.
  { apply writes_only_bind; [apply writes_only_perturb|]. intros _.
    apply writes_only_bind; [apply writes_only_for_sites|]. intros _.
    apply writes_only_ret. }
  rewrite Hrun in Hframe.
  assert (frame (heap w) l w') as Hw'.
  { destruct r; apply Hframe; intros l0 Hl0; simpl; by rewrite lookup_insert_ne. }
  assert (∀ l0 s0, heap w !! l0 = Some s0 → heap w' !! l0 = Some s0) as Hall.
  { intros l0 s0 Hl0. rewrite Hw'; [done|]. congruence. }
  split_and!; [by apply Hall | done |].
  intros l1 ->.
  assert (l1 = l) as ->.
  { clear Hframe Hm. unfold mbind, M_bind in Hrun.
    repeat match type of Hrun with
           | context [match ?x with _ => _ end] => destruct x; try done
           end.
    by injection Hrun as <- _. }
  split; [congruence | done].
Qed.

(** *** In-range groups and a positive maximum angle do not raise *)

Lemma py_index_in_range n i : in_range n i → ∃ k, py_index n i = Some k ∧ k < n.
Proof.
  unfold in_range, py_index. intros Hi.
  destruct (decide (0 ≤ i < Z.of_nat n)%Z); [eexists; split; [done|lia]|].
  destruct (decide (- Z.of_nat n ≤ i < 0)%Z); [eexists; split; [done|lia] | lia].
Qed.

Lemma getitem_int_in_range s i w :
  in_range (length (sites s)) i →
  ∃ k site, getitem_int s i w = (Returned (k, site), w) ∧ k < length (sites s).
Proof.
  intros (k & Hk & Hlt)%py_index_in_range. unfold getitem_int. rewrite Hk.
  destruct (lookup_lt_is_Some_2 _ _ Hlt) as [site ->]. by exists k, site.
Qed.

Lemma for_index_returns l idxs center total s w :
  heap w !! l = Some s →
  Forall (in_range (length (sites s))) idxs →
  ∃ r, for_index l idxs center total w = (Returned r, w).
Proof.
  intros Hs Hall. revert center total.
  induction Hall as [|i rest Hi _ IH]; intros center total; simpl; [by eexists|].
  rewrite run_bind. unfold load. rewrite Hs. rewrite run_bind.
  destruct (getitem_int_in_range s i w Hi) as (k & site & -> & _). apply IH.
Qed.

Lemma get_center_of_mass_returns l idxs s w :
  heap w !! l = Some s →
  Forall (in_range (length (sites s))) idxs →
  ∃ c, get_center_of_mass l idxs w = (Returned c, w).
Proof.
  intros Hs Hall. unfold get_center_of_mass. rewrite run_bind.
  destruct (for_index_returns l idxs vzero 0%float s w Hs Hall) as [[c t] ->].
  by eexists.
Qed.

Lemma rotate_sites_shape n l idxs theta axis anchor :
  Forall (in_range n) idxs →
  triple (shape n l) (rotate_sites lib l idxs theta axis anchor)
    (λ _, shape n l) (λ _ _, False).
Proof.
  intros Hall. induction Hall as [|i rest Hi _ IH]; intros w Hw; simpl; [done|].
  destruct Hw as (s & Hs & Hlen).
  rewrite run_bind. unfold load. rewrite Hs. rewrite run_bind.
  rewrite <- Hlen in Hi.
  destruct (getitem_int_in_range s i w Hi) as (k & site & -> & Hk).
  rewrite run_bind. unfold store. apply IH.
  eexists. simpl. rewrite lookup_insert_eq. split; [done|].
  simpl. by rewrite length_insert.
Qed.

Lemma randrange_returns start stop w :
  (start < stop)%Z →
  ∃ k w', randrange lib start stop w = (Returned k, w') ∧
          (start ≤ k < stop)%Z ∧ heap w' = heap w.
Proof.
  intros Hlt. unfold randrange. rewrite decide_True by done.
  pose proof (randbelow_range lib (stop - start) (py_random w)) as Hk.
  destruct (randbelow lib (stop - start) (py_random w)) as [k g]. simpl in Hk.
  eexists _, _. split; [done|]. split; [lia | done].
Qed.

Lemma float_of_int_returns z w :
  (Z.abs z < angle_bound)%Z → ∃ f, float_of_int z w = (Returned f, w).
Proof.
  intros Hz. unfold float_of_int. fold angle_bound.
  rewrite decide_True by done. by eexists.
Qed.

Lemma for_sites_shape n l fa_molecules maximum_angle rotation_axis :
  Forall (Forall (in_range n)) fa_molecules →
  fa_molecules = [] ∨ (0 < maximum_angle < angle_bound)%Z →
  triple (shape n l) (for_sites lib l fa_molecules maximum_angle rotation_axis)
    (λ _, shape n l) (λ _ _, False).
Proof.
  intros Hall. induction Hall as [|sites rest Hsites _ IH]; intros Hmax w Hw; simpl;
    [done|].
  destruct Hmax as [|Hmax]; [done|].
  rewrite run_bind.
  destruct (randrange_returns (- maximum_angle) maximum_angle w)
    as (angle & w1 & -> & Hangle & Hheap); [lia|].
  assert (shape n l w1) as Hw1 by (unfold shape; by rewrite Hheap).
  destruct Hw1 as (s & Hs & Hlen).
  rewrite run_bind. rewrite <- Hlen in Hsites.
  destruct (get_center_of_mass_returns l sites s w1 Hs Hsites) as [c ->].
  rewrite run_bind.
  destruct (float_of_int_returns angle w1) as [angle_f ->]; [lia|].
  rewrite run_bind. rewrite Hlen in Hsites.
  pose proof (rotate_sites_shape n l sites (angle_f * np_pi / 180)%float
                rotation_axis c Hsites w1 (ex_intro _ s (conj Hs Hlen))) as Hrot.
  destruct (rotate_sites _ _ _ _ _ _ _) as [[[]|e] w2]; [|done].
  apply IH; [by right | done].
Qed.

Lemma perturb_sites_length lat distance l g :
  length (perturb_sites lib lat distance l g).1 = length l.
Proof.
  revert g. induction l as [|site rest IH]; intros g; simpl; [done|].
  destruct (perturb_coords lib lat distance (coords site) g) as [c g1].
  specialize (IH g1). destruct (perturb_sites lib lat distance rest g1) as [rest' g2].
  simpl in *. by rewrite IH.
Qed.

Lemma perturb_shape n l distance :
  triple (shape n l) (perturb lib l distance) (λ _, shape n l) (λ _ _, False).
Proof.
  intros w (s & Hs & Hlen). unfold perturb.
  rewrite run_bind. unfold load. rewrite Hs. rewrite run_bind.
  unfold with_np_random.
  pose proof (perturb_sites_length (lattice s) distance (sites s) (np_random w)) as Hp.
  destruct (perturb_sites lib (lattice s) distance (sites s) (np_random w)) as [l' g].
  unfold store. eexists. simpl. rewrite lookup_insert_eq. split; [done|].
  simpl in *. by rewrite Hp.
Qed.

(** C7, as the code has it: with every index of every group in range, and
    either no group at all or a maximum angle from 1 up to the largest int
    whose draws all convert to a float, the call returns; what it returns is
    a structure of as many sites as the input. *)
Theorem rotate_a_cation_returns struct fa_molecules maximum_angle rotation_axis s w :
  heap w !! struct = Some s →
  Forall (Forall (in_range (length (sites s)))) fa_molecules →
  fa_molecules = [] ∨ (0 < maximum_angle < angle_bound)%Z →
  ∃ l w' s',
    rotate_a_cation lib struct fa_molecules maximum_angle rotation_axis w
      = (Returned l, w') ∧
    heap w' !! l = Some s' ∧ length (sites s') = length (sites s).
Proof.
  intros Hs Hall Hmax. unfold rotate_a_cation.
  rewrite run_bind, (deepcopy_eq _ _ _ Hs).
  unfold alloc. cbv beta iota zeta.
  set (l := fresh (dom (heap w))).
  match goal with |- ∃ _ _ _, ?m ?w1 = _ ∧ _ =>
    assert (shape (length (sites s)) l w1) as Hw1 end.
  { exists s. simpl. by rewrite lookup_insert_eq. }
  rewrite run_bind.
  pose proof (perturb_shape _ l 0.000001%float _ Hw1) as Hp.
  destruct (perturb lib l _ _) as [[[]|e] w2]; [|done].
  rewrite run_bind.
  pose proof (for_sites_shape _ l _ _ rotation_axis Hall Hmax w2 Hp) as Hf.
  destruct (for_sites lib l _ _ _ w2) as [[[]|e] w3]; [|done].
  destruct Hf as (s' & Hs' & Hlen). by exists l, w3, s'.
Qed.

End rotator_facts.

(** ** The locator and the rotator on the example structures *)

Lemma get_a_cation_sites_groups_witness :
  let w := world_with molecules in
  let w' := logs [PrintStrings ["N"; "N"]; PrintStrings ["N"; "N"]] [] w in
  heap w !! 0 = Some molecules ∧
  molecule_groups toy molecules "C" 3.5 = [[0; 1; 2]; [3; 4; 5]] ∧
  get_a_cation_sites toy 0 "C" 3.5 w = (Returned [[0; 1; 2]; [3; 4; 5]], w').
Proof.
  intros w w'.
  assert (molecule_groups toy molecules "C" 3.5 = [[0; 1; 2]; [3; 4; 5]]) as Hg
    by compute_done.
  split_and!; [done..|].
  destruct (get_a_cation_sites_groups toy 0 "C" 3.5%float molecules w eq_refl)
    as [_ Hsame].
  rewrite Hg in Hsame. apply Hsame; [done|].
  intros g1 g2 Hg1 Hg2.
  apply list_elem_of_In in Hg1, Hg2. simpl in Hg1, Hg2.
  by destruct Hg1 as [<-|[<-|[]]], Hg2 as [<-|[<-|[]]].
Defined.

(** C8: [square] has no C site.  All the groups there are, none, have the
    same length, and still the call raises instead of returning them. *)
Lemma no_group_is_not_returned :
  let w := world_with square in
  let groups := molecule_groups toy square "C" 3.5 in
  (∀ g1 g2, g1 ∈ groups → g2 ∈ groups → length g1 = length g2) ∧
  (get_a_cation_sites toy 0 "C" 3.5 w).1 = Raised (AssertionError "") ∧
  (get_a_cation_sites toy 0 "C" 3.5 w).1 ≠ Returned groups.
Proof.
  intros w groups.
  assert (groups = []) as -> by compute_done.
  split; [by intros g1 g2 ?%elem_of_nil|].
  by vm_compute.
Qed.

Lemma get_a_cation_sites_no_marker_witness :
  let w := world_with square in
  heap w !! 0 = Some square ∧
  (∀ site, site ∈ sites square → species_string site ≠ "C") ∧
  get_a_cation_sites toy 0 "C" 3.5 w = (Raised (AssertionError ""), w).
Proof.
  intros w.
  assert (∀ site, site ∈ sites square → species_string site ≠ "C") as Hnone
    by (apply Forall_forall; compute_done).
  split_and!; [done..|].
  exact (get_a_cation_sites_no_marker toy 0 "C" 3.5%float square w eq_refl Hnone).
Defined.

Lemma rotate_a_cation_leaves_input_witness :
  let w := world_with molecules in
  let run := rotate_a_cation toy 0 [[0; 1; 2]; [3; 4; 5]]%Z 180 (0, 1, 0)%float w in
  heap w !! 0 = Some molecules ∧
  heap run.2 !! 0 = Some molecules ∧
  (∀ l0 s0, heap w !! l0 = Some s0 → heap run.2 !! l0 = Some s0) ∧
  (∀ l, run.1 = Returned l → l ≠ 0 ∧ heap w !! l = None).
Proof.
  intros w run. split; [done|].
  exact (rotate_a_cation_leaves_input toy 0 [[0; 1; 2]; [3; 4; 5]]%Z 180
           (0, 1, 0)%float molecules w run.1 run.2 eq_refl (surjective_pairing run)).
Defined.

(** C7: a maximum angle of 0 leaves [random.randrange(0, 0)] nothing to
    draw from, and the call raises although every index is in range. *)
Lemma rotate_a_cation_zero_angle_raises :
  let w := world_with molecules in
  Forall (Forall (in_range (length (sites molecules)))) [[0; 1; 2]]%Z ∧
  (rotate_a_cation toy 0 [[0; 1; 2]]%Z 0 (0, 1, 0)%float w).1
    = Raised (ValueError "empty range for randrange()").
Proof.
  intros w. split; [|by vm_compute].
  repeat constructor; unfold in_range; simpl; lia.
Qed.

Lemma rotate_a_cation_returns_witness :
  let w := world_with molecules in
  heap w !! 0 = Some molecules ∧
  Forall (Forall (in_range (length (sites molecules)))) [[0; 1; 2]; [3; 4; -1]]%Z ∧
  (0 < 180 < angle_bound)%Z ∧
  ∃ l w' s',
    rotate_a_cation toy 0 [[0; 1; 2]; [3; 4; -1]]%Z 180 (0, 1, 0)%float w
      = (Returned l, w') ∧
    heap w' !! l = Some s' ∧ length (sites s') = length (sites molecules).
Proof.
  intros w.
  assert (Forall (Forall (in_range (length (sites molecules))))
            [[0; 1; 2]; [3; 4; -1]]%Z) as Hall
    by (repeat constructor; unfold in_range; simpl; lia).
  assert (0 < 180 < angle_bound)%Z as Hmax by compute_done.
  split_and!; [done..|].
  exact (rotate_a_cation_returns toy 0 [[0; 1; 2]; [3; 4; -1]]%Z 180 (0, 1, 0)%float
           molecules w eq_refl Hall (or_intror Hmax)).
Defined.

(** ** Beyond the claims: the center of mass *)

Section center_of_mass_facts.

Lemma getitem_int_eq s i w :
  getitem_int s i w =
    match py_index (length (sites s)) i with
    | Some k =>
        match sites s !! k with
        | Some site => (Returned (k, site), w)
        | None => (Raised (IndexError "list index out of range"), w)
        end
    | None => (Raised (IndexError "list index out of range"), w)
    end.
Proof.
  unfold getitem_int. destruct (py_index _ _) as [k|]; [|done].
  by destruct (sites s !! k).
Qed.

Lemma py_index_out_of_range n i : ¬ in_range n i → py_index n i = None.
Proof.
  unfold in_range, py_index. intros Hi.
  destruct (decide (0 ≤ i < Z.of_nat n)%Z); [lia|].
  destruct (decide (- Z.of_nat n ≤ i < 0)%Z); [lia|done].
Qed.

Lemma site_at_in_range s i :
  in_range (length (sites s)) i → ∃ k site,
    py_index (length (sites s)) i = Some k ∧ sites s !! k = Some site ∧
    site_at s i = Some site.
Proof.
  intros (k & Hk & Hlt)%py_index_in_range.
  destruct (lookup_lt_is_Some_2 _ _ Hlt) as [site Hsite].
  exists k, site. unfold site_at. rewrite Hk. simpl. by rewrite Hsite.
Qed.

Lemma for_index_in_range l idxs center total s w :
  heap w !! l = Some s →
  Forall (in_range (length (sites s))) idxs →
  for_index l idxs center total w =
    (Returned
       (foldl (λ c x, vadd c (vscale (coords x) (weight x))) center
          (omap (site_at s) idxs),
        foldl (λ t x, (t + weight x)%float) total (omap (site_at s) idxs)),
     w).
Proof.
  intros Hs Hall. revert center total.
  induction Hall as [|i rest Hi _ IH]; intros center total; simpl; [done|].
  rewrite run_bind. unfold load. rewrite Hs. rewrite run_bind, getitem_int_eq.
  destruct (site_at_in_range s i Hi) as (k & site & -> & -> & ->). simpl.
  apply IH.
Qed.

Lemma for_index_out_of_range l idxs center total s w :
  heap w !! l = Some s →
  Exists (λ i, ¬ in_range (length (sites s)) i) idxs →
  for_index l idxs center total w
    = (Raised (IndexError "list index out of range"), w).
Proof.
  intros Hs Hbad. revert center total.
  induction idxs as [|i rest IH]; intros center total; [by apply Exists_nil in Hbad|].
  simpl. rewrite run_bind. unfold load. rewrite Hs. rewrite run_bind, getitem_int_eq.
  destruct (decide (in_range (length (sites s)) i)) as [Hi|Hi].
  - destruct (site_at_in_range s i Hi) as (k & site & -> & -> & _).
    apply IH. by apply Exists_cons in Hbad as [?|?].
  - by rewrite (py_index_out_of_range _ _ Hi).
Qed.

(** With every index in range (negative ones counting from the end), the
    center of mass is the sum of position times weight over the sum of the
    weights, both summed in the order of the list, and the world is left as
    it was. *)
Theorem get_center_of_mass_in_range l idxs s w :
  heap w !! l = Some s →
  Forall (in_range (length (sites s))) idxs →
  get_center_of_mass l idxs w
    = (Returned (center_of (omap (site_at s) idxs)), w).
Proof.
  intros Hs Hall. unfold get_center_of_mass.
  by rewrite run_bind, (for_index_in_range _ _ _ _ _ _ Hs Hall).
Qed.

(** One index out of range makes [get_center_of_mass] raise IndexError,
    wherever in the list it stands, and nothing is written. *)
Theorem get_center_of_mass_out_of_range l idxs s w :
  heap w !! l = Some s →
  Exists (λ i, ¬ in_range (length (sites s)) i) idxs →
  get_center_of_mass l idxs w
    = (Raised (IndexError "list index out of range"), w).
Proof.
  intros Hs Hbad. unfold get_center_of_mass.
  by rewrite run_bind, (for_index_out_of_range _ _ _ _ _ _ Hs Hbad).
Qed.

End center_of_mass_facts.

(** ** Beyond the claims: the rotator *)

Section rotator_more.
Context (lib : Library).

Lemma rotate_a_cation_eq struct fa_molecules maximum_angle rotation_axis s w :
  heap w !! struct = Some s →
  rotate_a_cation lib struct fa_molecules maximum_angle rotation_axis w =
    let '(l, w1) := perturbed_copy lib s w in
    match for_sites lib l fa_molecules maximum_angle rotation_axis w1 with
    | (Returned _, w2) => (Returned l, w2)
    | (Raised e, w2) => (Raised e, w2)
    end.
Proof.
  intros Hs. unfold rotate_a_cation, perturbed_copy.
  rewrite run_bind, (deepcopy_eq _ _ _ Hs). unfold alloc. cbv beta iota zeta.
  set (l := fresh (dom (heap w))).
  rewrite run_bind. unfold perturb at 1.
  rewrite run_bind. unfold load at 1. simpl. rewrite lookup_insert_eq.
  rewrite run_bind. unfold with_np_random. simpl.
  destruct (perturb_sites lib (lattice s) _ (sites s) (np_random w)) as [moved g].
  unfold store. simpl. rewrite insert_insert_eq. rewrite run_bind.
  by destruct (for_sites lib l _ _ _ _) as [[[]|e] w2].
Qed.

(** A maximum angle of zero or less leaves nothing to draw from: as soon as
    there is one group the call raises ValueError, before any angle is
    drawn (Python's generator is as it was) and with the input structure
    in place. *)
Theorem rotate_a_cation_empty_range struct fa_molecules maximum_angle
    rotation_axis s w :
  heap w !! struct = Some s →
  fa_molecules ≠ [] →
  (maximum_angle ≤ 0)%Z →
  let run := rotate_a_cation lib struct fa_molecules maximum_angle rotation_axis w in
  run.1 = Raised (ValueError "empty range for randrange()") ∧
  py_random run.2 = py_random w ∧
  heap run.2 !! struct = Some s.
Proof.
  intros Hs Hfa Hmax run.
  assert (run = (Raised (ValueError "empty range for randrange()"),
                 (perturbed_copy lib s w).2)) as ->.
  { unfold run. rewrite (rotate_a_cation_eq _ _ _ _ _ _ Hs).
    destruct (perturbed_copy lib s w) as [l w1].
    destruct fa_molecules as [|g rest]; [done|]. simpl for_sites.
    rewrite run_bind. unfold randrange. by rewrite decide_False by lia. }
  unfold perturbed_copy. simpl. split_and!; [done..|].
  rewrite lookup_insert_ne; [done|].
  intros Heq. pose proof (is_fresh (dom (heap w))) as Hfresh.
  rewrite Heq in Hfresh. apply Hfresh, elem_of_dom. by eexists.
Qed.

Lemma for_sites_out_of_range n l fa_molecules maximum_angle rotation_axis w :
  shape n l w →
  (0 < maximum_angle < angle_bound)%Z →
  Exists (Exists (λ i, ¬ in_range n i)) fa_molecules →
  (for_sites lib l fa_molecules maximum_angle rotation_axis w).1
    = Raised (IndexError "list index out of range").
Proof.
  intros Hw Hmax Hbad. revert w Hw.
  induction fa_molecules as [|g rest IH]; intros w Hw; [by apply Exists_nil in Hbad|].
  simpl. rewrite run_bind.
  destruct (randrange_returns lib (- maximum_angle) maximum_angle w)
    as (angle & w1 & -> & Hangle & Hheap); [lia|].
  assert (shape n l w1) as Hw1 by (unfold shape; by rewrite Hheap).
  destruct Hw1 as (s & Hs & Hlen). rewrite run_bind.
  unfold get_center_of_mass. rewrite run_bind.
  destruct (decide (Forall (in_range n) g)) as [Hg|Hg].
  - rewrite <- Hlen in Hg. rewrite (for_index_in_range _ _ _ _ _ _ Hs Hg).
    unfold mret at 1, M_ret at 1. cbv beta iota. rewrite run_bind.
    destruct (float_of_int_returns angle w1) as [angle_f ->]; [lia|].
    rewrite run_bind. rewrite Hlen in Hg.
    pose proof (rotate_sites_shape lib n l g (angle_f * np_pi / 180)%float
                  rotation_axis (center_of (omap (site_at s) g)) Hg w1
                  (ex_intro _ s (conj Hs Hlen))) as Hrot.
    unfold center_of in Hrot.
    destruct (rotate_sites _ _ _ _ _ _ _) as [[[]|e] w2]; [|done].
    apply IH; [|done]. apply Exists_cons in Hbad as [Hbad|Hbad]; [|done].
    exfalso. apply Exists_exists in Hbad as (i & Hi & Hout).
    rewrite Forall_forall in Hg. by apply Hout, Hg.
  - apply not_Forall_Exists in Hg; [|apply _]. rewrite <- Hlen in Hg.
    by rewrite (for_index_out_of_range _ _ _ _ _ _ Hs Hg).
Qed.

Lemma shape_perturbed_copy s w :
  shape (length (sites s)) (perturbed_copy lib s w).1 (perturbed_copy lib s w).2.
Proof.
  unfold perturbed_copy, shape. simpl. eexists. rewrite lookup_insert_eq.
  split; [done|]. simpl. apply perturb_sites_length.
Qed.

(** A group with an index out of range makes the call raise IndexError,
    wherever the group stands in the list and the index in the group. *)
Theorem rotate_a_cation_out_of_range struct fa_molecules maximum_angle
    rotation_axis s w :
  heap w !! struct = Some s →
  (0 < maximum_angle < angle_bound)%Z →
  Exists (Exists (λ i, ¬ in_range (length (sites s)) i)) fa_molecules →
  (rotate_a_cation lib struct fa_molecules maximum_angle rotation_axis w).1
    = Raised (IndexError "list index out of range").
Proof.
  intros Hs Hmax Hbad. rewrite (rotate_a_cation_eq _ _ _ _ _ _ Hs).
  pose proof (shape_perturbed_copy s w) as Hshape.
  destruct (perturbed_copy lib s w) as [l w1]. simpl in Hshape.
  pose proof (for_sites_out_of_range _ l fa_molecules maximum_angle rotation_axis
                w1 Hshape Hmax Hbad) as Hraise.
  destruct (for_sites lib l _ _ _ w1) as [[[]|e] w2]; simpl in *; congruence.
Qed.

(** *** What the rotation keeps *)

Lemma triple_holds_heap {A} Q l (m : M A) :
  (∀ w, heap (m w).2 = heap w) →
  triple (holds Q l) m (λ _, holds Q l) (λ _, holds Q l).
Proof.
  intros Hm w Hw. specialize (Hm w).
  destruct (m w) as [[a|e] w']; simpl in Hm; unfold holds; by rewrite Hm.
Qed.

Lemma for_index_world l idxs center total w :
  (for_index l idxs center total w).2 = w.
Proof.
  revert center total. induction idxs as [|i rest IH]; intros center total; [done|].
  simpl. rewrite run_bind. unfold load. destruct (heap w !! l) as [s|]; [|done].
  rewrite run_bind, getitem_int_eq.
  destruct (py_index _ _) as [k|]; [|done]. destruct (sites s !! k); [|done].
  apply IH.
Qed.

Lemma get_center_of_mass_world l idxs w : (get_center_of_mass l idxs w).2 = w.
Proof.
  unfold get_center_of_mass. rewrite run_bind.
  pose proof (for_index_world l idxs vzero 0%float w) as Hw.
  by destruct (for_index l idxs vzero 0%float w) as [[[c t]|e] w'].
Qed.

Lemma rotate_sites_holds (Q : Structure → Prop) (T : nat → Prop) l idxs
    theta axis anchor :
  (∀ s k site c, Q s → T k → sites s !! k = Some site →
     Q {| lattice := lattice s; sites := <[k := with_coords site c]> (sites s) |}) →
  (∀ s i k, Q s → i ∈ idxs → py_index (length (sites s)) i = Some k → T k) →
  triple (holds Q l) (rotate_sites lib l idxs theta axis anchor)
    (λ _, holds Q l) (λ _, holds Q l).
Proof.
  intros Hstable. induction idxs as [|i rest IH]; intros Htarget w Hw; simpl; [done|].
  destruct Hw as (s & Hs & HQ).
  rewrite run_bind. unfold load. rewrite Hs. rewrite run_bind, getitem_int_eq.
  destruct (py_index _ _) as [k|] eqn:Hk; [|by exists s].
  destruct (sites s !! k) as [site|] eqn:Hsite; [|by exists s].
  rewrite run_bind. unfold store. apply IH.
  - intros s' i' k' HQ' Hi'. apply Htarget; [done | by right].
  - eexists. simpl. rewrite lookup_insert_eq. split; [done|].
    apply Hstable; [done| |done]. eapply Htarget; [done | by left | done].
Qed.

Lemma for_sites_holds (Q : Structure → Prop) (T : nat → Prop) l fa_molecules
    maximum_angle rotation_axis :
  (∀ s k site c, Q s → T k → sites s !! k = Some site →
     Q {| lattice := lattice s; sites := <[k := with_coords site c]> (sites s) |}) →
  (∀ s g i k, Q s → g ∈ fa_molecules → i ∈ g →
     py_index (length (sites s)) i = Some k → T k) →
  triple (holds Q l) (for_sites lib l fa_molecules maximum_angle rotation_axis)
    (λ _, holds Q l) (λ _, holds Q l).
Proof.
  intros Hstable. induction fa_molecules as [|g rest IH]; intros Htarget; simpl.
  - by apply triple_ret.
  - eapply triple_bind.
    { apply triple_holds_heap. intros w. unfold randrange.
      destruct (decide _); [|done]. by destruct (randbelow _ _ _). }
    intros angle. eapply triple_bind.
    { apply triple_holds_heap. intros w. by rewrite get_center_of_mass_world. }
    intros c. eapply triple_bind.
    { apply triple_holds_heap. intros w. unfold float_of_int. by destruct (decide _). }
    intros angle_f. eapply triple_bind.
    { apply (rotate_sites_holds Q T); [done|].
      intros s i k HQ Hi. apply (Htarget s g); [done | by left | done]. }
    intros []. apply IH. intros s g' i k HQ Hg'. apply Htarget; [done | by right].
Qed.

Lemma rotate_a_cation_holds (Q : Structure → Prop) (T : nat → Prop) struct
    fa_molecules maximum_angle rotation_axis s w l w' :
  heap w !! struct = Some s →
  (∀ s k site c, Q s → T k → sites s !! k = Some site →
     Q {| lattice := lattice s; sites := <[k := with_coords site c]> (sites s) |}) →
  (∀ s g i k, Q s → g ∈ fa_molecules → i ∈ g →
     py_index (length (sites s)) i = Some k → T k) →
  holds Q (perturbed_copy lib s w).1 (perturbed_copy lib s w).2 →
  rotate_a_cation lib struct fa_molecules maximum_angle rotation_axis w
    = (Returned l, w') →
  holds Q l w'.
Proof.
  intros Hs Hstable Htarget Hinit Hrun.
  rewrite (rotate_a_cation_eq _ _ _ _ _ _ Hs) in Hrun.
  destruct (perturbed_copy lib s w) as [l1 w1]. simpl in Hinit.
  pose proof (for_sites_holds Q T l1 fa_molecules maximum_angle rotation_axis
                Hstable Htarget w1 Hinit) as Hfor.
  destruct (for_sites lib l1 _ _ _ w1) as [[[]|e] w2]; [|done].
  by injection Hrun as <- <-.
Qed.

Lemma perturb_sites_atoms lat distance l g :
  (λ x, (species_string x, weight x)) <$> (perturb_sites lib lat distance l g).1
    = (λ x, (species_string x, weight x)) <$> l.
Proof.
  revert g. induction l as [|site rest IH]; intros g; simpl; [done|].
  destruct (perturb_coords lib lat distance (coords site) g) as [c g1].
  specialize (IH g1). destruct (perturb_sites lib lat distance rest g1) as [rest' g2].
  cbn [fst] in *. rewrite !fmap_cons. by rewrite IH.
Qed.

(** The structure returned has the lattice of the input and, site by site,
    its species and weights: the rotation moves atoms, it does not add,
    drop, reorder or change any. *)
Theorem rotate_a_cation_keeps_atoms struct fa_molecules maximum_angle
    rotation_axis s w l w' :
  heap w !! struct = Some s →
  rotate_a_cation lib struct fa_molecules maximum_angle rotation_axis w
    = (Returned l, w') →
  ∃ s', heap w' !! l = Some s' ∧ lattice s' = lattice s ∧ atoms s' = atoms s.
Proof.
  intros Hs Hrun.
  apply (rotate_a_cation_holds (λ s', lattice s' = lattice s ∧ atoms s' = atoms s)
           (λ _, True) struct fa_molecules maximum_angle rotation_axis s w l w' Hs);
    [| | |done].
  - intros s' k site c [Hlat Hatoms] _ Hsite. split; [done|].
    rewrite <- Hatoms. unfold atoms. simpl. rewrite list_fmap_insert. simpl.
    apply list_insert_id. by rewrite list_lookup_fmap, Hsite.
  - done.
  - unfold perturbed_copy, holds. simpl. eexists. rewrite lookup_insert_eq.
    split; [done|]. split; [done|]. unfold atoms. simpl. apply perturb_sites_atoms.
Qed.

(** A site that no group lists, under any of its two indices, has in the
    structure returned the position [perturb] gave it: only listed sites
    are rotated. *)
Theorem rotate_a_cation_unlisted_site struct fa_molecules maximum_angle
    rotation_axis s w l w' k :
  heap w !! struct = Some s →
  (∀ g i, g ∈ fa_molecules → i ∈ g → py_index (length (sites s)) i ≠ Some k) →
  rotate_a_cation lib struct fa_molecules maximum_angle rotation_axis w
    = (Returned l, w') →
  ∃ s', heap w' !! l = Some s' ∧
    sites s' !! k =
      (perturb_sites lib (lattice s) 0.000001%float (sites s) (np_random w)).1 !! k.
Proof.
  intros Hs Hunlisted Hrun.
  set (moved := (perturb_sites lib (lattice s) 0.000001%float (sites s)
                   (np_random w)).1).
  destruct (rotate_a_cation_holds
              (λ s', length (sites s') = length (sites s) ∧ sites s' !! k = moved !! k)
              (λ k', k' ≠ k) struct fa_molecules maximum_angle rotation_axis
              s w l w' Hs) as (s' & Hs' & _ & Hk); [| | |done|].
  - intros s' k' site c [Hlen Hk] Hne Hsite. simpl.
    rewrite length_insert. split; [done|]. by rewrite list_lookup_insert_ne.
  - intros s' g i k' [Hlen _] Hg Hi Hk' ->. rewrite Hlen in Hk'.
    by apply (Hunlisted g i).
  - unfold perturbed_copy, holds. simpl. eexists. rewrite lookup_insert_eq.
    split; [done|]. simpl. split; [apply perturb_sites_length | done].
  - by exists s'.
Qed.

(** *** The locator, then the rotator *)

Lemma for_sites_returns n l fa_molecules maximum_angle rotation_axis w :
  shape n l w →
  Forall (Forall (in_range n)) fa_molecules →
  (0 < maximum_angle < angle_bound)%Z →
  ∃ w', for_sites lib l fa_molecules maximum_angle rotation_axis w = (Returned (), w').
Proof.
  intros Hw Hall Hmax.
  pose proof (for_sites_shape lib n l fa_molecules maximum_angle rotation_axis Hall
                (or_intror Hmax) w Hw) as Hfor.
  destruct (for_sites lib l _ _ _ w) as [[[]|e] w']; [by eexists | done].
Qed.

(** Whenever the locator returns, it returns at least one group; the groups
    begin with the sites of the marker species, in structure order; and
    all have one length, which is at least one. *)
Theorem get_a_cation_sites_returned struct marker radius s w groups w' :
  heap w !! struct = Some s →
  get_a_cation_sites lib struct marker radius w = (Returned groups, w') →
  groups ≠ [] ∧
  head <$> groups = Some <$> sites_of_species s marker ∧
  ∃ n, 0 < n ∧ Forall (λ g, length g = n) groups.
Proof.
  intros Hs Hrun. rewrite (get_a_cation_sites_eq lib _ _ _ _ _ Hs) in Hrun.
  cbv zeta in Hrun.
  destruct (decide (size (list_to_set (length <$> molecule_groups lib s marker radius)
                            : gset nat) = 1)) as [Hsize|]; [|done].
  injection Hrun as <- _.
  apply size_list_to_set_1 in Hsize as [Hne Hall].
  split_and!.
  - by destruct (molecule_groups lib s marker radius).
  - unfold molecule_groups, sites_of_species.
    rewrite <- !list_fmap_compose. done.
  - destruct (molecule_groups lib s marker radius) as [|g0 rest] eqn:Hg; [done|].
    exists (length g0). split.
    + assert (g0 ∈ molecule_groups lib s marker radius) as Hin by (rewrite Hg; by left).
      unfold molecule_groups in Hin.
      apply list_elem_of_fmap in Hin as (p & -> & _). simpl. lia.
    + apply Forall_forall. intros g Hin.
      apply Hall; apply list_elem_of_fmap; [by exists g | exists g0; split; [done | by left]].
Qed.

(** The two functions compose: if every neighbour the library reports is a
    site of the structure, the groups the locator returns are groups the
    rotator accepts, and with a maximum angle from 1 up to the bound the
    rotator returns. *)
Theorem locate_then_rotate struct marker radius maximum_angle rotation_axis
    s w groups w1 :
  heap w !! struct = Some s →
  (∀ site, Forall (λ nb, site_index nb < length (sites s))
             (get_neighbors lib s site radius)) →
  (0 < maximum_angle < angle_bound)%Z →
  get_a_cation_sites lib struct marker radius w = (Returned groups, w1) →
  ∃ l w',
    rotate_a_cation lib struct (as_ints groups) maximum_angle rotation_axis w1
      = (Returned l, w').
Proof.
  intros Hs Hvalid Hmax Hrun.
  rewrite (get_a_cation_sites_eq lib _ _ _ _ _ Hs) in Hrun. cbv zeta in Hrun.
  destruct (decide _) as [_|]; [|done]. injection Hrun as <- <-.
  assert (heap (logs (neighbor_prints lib s marker radius) [] w) !! struct = Some s)
    as Hs1 by done.
  rewrite (rotate_a_cation_eq _ _ _ _ _ _ Hs1).
  pose proof (shape_perturbed_copy s (logs (neighbor_prints lib s marker radius) [] w))
    as Hshape.
  destruct (perturbed_copy lib s _) as [l w2]. simpl in Hshape.
  destruct (for_sites_returns _ l (as_ints (molecule_groups lib s marker radius))
              maximum_angle rotation_axis w2 Hshape) as [w3 ->]; [|done|by eexists _, _].
  unfold as_ints, molecule_groups. rewrite <- list_fmap_compose.
  apply Forall_fmap, Forall_forall. intros [i site] Hin. simpl.
  apply list_elem_of_filter in Hin as [_ Hin].
  apply elem_of_lookup_imap in Hin as (j & x & [= -> ->] & Hj).
  apply lookup_lt_Some in Hj.
  apply Forall_cons. split; [unfold in_range; lia|].
  change (list_fmap nat Z Z.of_nat ?l) with (Z.of_nat <$> l).
  rewrite <- list_fmap_compose. apply Forall_fmap.
  eapply Forall_impl; [apply Hvalid|]. intros nb Hnb.
  unfold in_range, compose. simpl in *. lia.
Qed.

End rotator_more.

(** ** The further properties of the rotator on the example structures *)

Lemma toy_get_neighbors_valid s center r :
  Forall (λ nb, site_index nb < length (sites s)) (toy_get_neighbors s center r).
Proof.
  apply Forall_forall. intros nb Hnb. unfold toy_get_neighbors in Hnb.
  apply list_elem_of_omap in Hnb as ([i site] & Hin & Hsome).
  apply elem_of_lookup_imap in Hin as (j & x & [= -> ->] & Hj).
  apply lookup_lt_Some in Hj.
  destruct (_ && _); [|done]. by injection Hsome as <-.
Qed.

Lemma get_center_of_mass_in_range_witness :
  let w := world_with molecules in
  heap w !! 0 = Some molecules ∧
  Forall (in_range (length (sites molecules))) [0; 1; -1]%Z ∧
  get_center_of_mass 0 [0; 1; -1]%Z w
    = (Returned (center_of (omap (site_at molecules) [0; 1; -1]%Z)), w).
Proof.
  intros w.
  assert (Forall (in_range (length (sites molecules))) [0; 1; -1]%Z) as Hall
    by (repeat constructor; unfold in_range; simpl; lia).
  split_and!; [done..|].
  exact (get_center_of_mass_in_range 0 [0; 1; -1]%Z molecules w eq_refl Hall).
Defined.

Lemma get_center_of_mass_out_of_range_witness :
  let w := world_with molecules in
  heap w !! 0 = Some molecules ∧
  Exists (λ i, ¬ in_range (length (sites molecules)) i) [0; 6]%Z ∧
  get_center_of_mass 0 [0; 6]%Z w
    = (Raised (IndexError "list index out of range"), w).
Proof.
  intros w.
  assert (Exists (λ i, ¬ in_range (length (sites molecules)) i) [0; 6]%Z) as Hbad
    by (apply Exists_cons_tl, Exists_cons_hd; unfold in_range; simpl; lia).
  split_and!; [done..|].
  exact (get_center_of_mass_out_of_range 0 [0; 6]%Z molecules w eq_refl Hbad).
Defined.

Lemma rotate_a_cation_empty_range_witness :
  let w := world_with molecules in
  let run := rotate_a_cation toy 0 [[0; 1; 2]]%Z (-5) (0, 1, 0)%float w in
  heap w !! 0 = Some molecules ∧
  [[0; 1; 2]]%Z ≠ [] ∧
  (-5 ≤ 0)%Z ∧
  run.1 = Raised (ValueError "empty range for randrange()") ∧
  py_random run.2 = py_random w ∧
  heap run.2 !! 0 = Some molecules.
Proof.
  intros w run. split; [done|]. split; [done|]. split; [lia|].
  exact (rotate_a_cation_empty_range toy 0 [[0; 1; 2]]%Z (-5) (0, 1, 0)%float
           molecules w eq_refl ltac:(done) ltac:(lia)).
Defined.

Lemma rotate_a_cation_out_of_range_witness :
  let w := world_with molecules in
  heap w !! 0 = Some molecules ∧
  (0 < 180 < angle_bound)%Z ∧
  Exists (Exists (λ i, ¬ in_range (length (sites molecules)) i)) [[0; 1]; [7]]%Z ∧
  (rotate_a_cation toy 0 [[0; 1]; [7]]%Z 180 (0, 1, 0)%float w).1
    = Raised (IndexError "list index out of range").
Proof.
  intros w.
  assert (0 < 180 < angle_bound)%Z as Hmax by compute_done.
  assert (Exists (Exists (λ i, ¬ in_range (length (sites molecules)) i))
            [[0; 1]; [7]]%Z) as Hbad
    by (apply Exists_cons_tl, Exists_cons_hd, Exists_cons_hd;
        unfold in_range; simpl; lia).
  split_and!; [done..|].
  exact (rotate_a_cation_out_of_range toy 0 [[0; 1]; [7]]%Z 180 (0, 1, 0)%float
           molecules w eq_refl Hmax Hbad).
Defined.

Lemma rotate_a_cation_keeps_atoms_witness :
  let w := world_with molecules in
  let run := rotate_a_cation toy 0 [[0; 1; 2]; [3; 4; 5]]%Z 180 (0, 1, 0)%float w in
  heap w !! 0 = Some molecules ∧
  run = (Returned 1, run.2) ∧
  ∃ s', heap run.2 !! 1 = Some s' ∧
        lattice s' = lattice molecules ∧ atoms s' = atoms molecules.
Proof.
  intros w run.
  assert (run = (Returned 1, run.2)) as Hrun by compute_done.
  split_and!; [done..|].
  exact (rotate_a_cation_keeps_atoms toy 0 [[0; 1; 2]; [3; 4; 5]]%Z 180
           (0, 1, 0)%float molecules w 1 run.2 eq_refl Hrun).
Defined.

Lemma rotate_a_cation_unlisted_site_witness :
  let w := world_with molecules in
  let run := rotate_a_cation toy 0 [[0; 1; 2]]%Z 180 (0, 1, 0)%float w in
  heap w !! 0 = Some molecules ∧
  run = (Returned 1, run.2) ∧
  ∃ s', heap run.2 !! 1 = Some s' ∧
    sites s' !! 4 =
      (perturb_sites toy (lattice molecules) 0.000001%float (sites molecules)
         (np_random w)).1 !! 4.
Proof.
  intros w run.
  assert (run = (Returned 1, run.2)) as Hrun by compute_done.
  split_and!; [done..|].
  apply (rotate_a_cation_unlisted_site toy 0 [[0; 1; 2]]%Z 180 (0, 1, 0)%float
           molecules w 1 run.2 4 eq_refl); [|exact Hrun].
  intros g i Hg Hi.
  apply list_elem_of_singleton in Hg as ->.
  rewrite !elem_of_cons, elem_of_nil in Hi.
  destruct Hi as [->|[->|[->|[]]]]; by vm_compute.
Defined.

Lemma get_a_cation_sites_returned_witness :
  let w := world_with molecules in
  let w' := logs [PrintStrings ["N"; "N"]; PrintStrings ["N"; "N"]] [] w in
  get_a_cation_sites toy 0 "C" 3.5 w = (Returned [[0; 1; 2]; [3; 4; 5]], w') ∧
  [[0; 1; 2]; [3; 4; 5]] ≠ [] ∧
  head <$> [[0; 1; 2]; [3; 4; 5]] = Some <$> sites_of_species molecules "C" ∧
  ∃ n, 0 < n ∧ Forall (λ g, length g = n) [[0; 1; 2]; [3; 4; 5]].
Proof.
  intros w w'.
  assert (get_a_cation_sites toy 0 "C" 3.5 w = (Returned [[0; 1; 2]; [3; 4; 5]], w'))
    as Hrun by compute_done.
  split; [done|].
  exact (get_a_cation_sites_returned toy 0 "C" 3.5%float molecules w _ _ eq_refl Hrun).
Defined.

Lemma locate_then_rotate_witness :
  let w := world_with molecules in
  let w1 := logs [PrintStrings ["N"; "N"]; PrintStrings ["N"; "N"]] [] w in
  get_a_cation_sites toy 0 "C" 3.5 w = (Returned [[0; 1; 2]; [3; 4; 5]], w1) ∧
  (0 < 90 < angle_bound)%Z ∧
  ∃ l w',
    rotate_a_cation toy 0 (as_ints [[0; 1; 2]; [3; 4; 5]]) 90 (0, 1, 0)%float w1
      = (Returned l, w').
Proof.
  intros w w1.
  assert (get_a_cation_sites toy 0 "C" 3.5 w = (Returned [[0; 1; 2]; [3; 4; 5]], w1))
    as Hrun by compute_done.
  assert (0 < 90 < angle_bound)%Z as Hmax by compute_done.
  split_and!; [done..|].
  exact (locate_then_rotate toy 0 "C" 3.5%float 90 (0, 1, 0)%float molecules w _ _
           eq_refl (λ site, toy_get_neighbors_valid molecules site 3.5%float) Hmax Hrun).
Defined.
